(** * UnifiMessenger: the message bus and the adapter base class

    A shallow embedding of [src/core/MessageManager.js] (class
    [MessageManager]), of [src/core/BaseIntegration.js] (class
    [BaseIntegration]) and of the inbound handlers of the Slack and
    Telegram adapters ([handleMessage]), with the properties of the bus
    stated and proved over it.

    Conventions of the embedding.
    - JavaScript values are the inductive [Js.Value]; numbers are the
      integers the payloads carry ([Z]); objects are association lists of
      their own properties.
    - A JavaScript [Map] is an insertion-ordered association list
      ([Js.map_get], [Js.map_set], ...): [set] on a key that is present
      replaces the value in place, [set] on a new key appends.
    - Methods that touch [this] are computations of the monad [Js.M]: they
      take the state of the object and return a completion (a returned
      value or a thrown [Js.Error]) and the new state.  State written
      before a throw stays written, as in JavaScript.
    - [async] methods run to completion: the bus reads and writes its maps
      only in the segments between two [await]s, and an adapter's
      [sendMessage] and an agent's [processMessage] are oracles of the
      model, so an [await] is the point where the oracle is asked.
    - [uuidv4()] and [moment()] are oracles too: the bus state counts the
      calls made so far and the [n]-th call returns [uuidv4 n], [clock n].
    - [logger] calls have no effect on the bus and are left out. *)

From Stdlib Require Import List String Ascii ZArith Bool Arith Lia.
From Stdlib Require Import Permutation Sorted.
From Stdlib Require DecimalString.
From Equations Require Import Equations.
Import ListNotations.

Local Open Scope string_scope.
Local Open Scope list_scope.
Set Warnings "-register-all".

(* ===================================================================== *)
(** * JavaScript values, completions and maps *)
(* ===================================================================== *)

Module Js.

(** The values that adapter payloads are made of. *)
Inductive Value : Type :=
| VUndefined
| VNull
| VBool (b : bool)
| VNum (n : Z)
| VStr (s : string)
| VObj (props : list (string * Value)).

(** An [Error] instance: [new Error(message)], or the [TypeError] the
    runtime raises on a property read of [undefined] or [null]. *)
Record Error : Type := mkError { name : string; message : string }.

Definition new_Error (msg : string) : Error := mkError "Error" msg.
Definition TypeError (msg : string) : Error := mkError "TypeError" msg.

(** How a piece of code ends: it returns or it throws. *)
Inductive Completion (A : Type) : Type :=
| Return (a : A)
| Throw (e : Error).
Arguments Return {A} a.
Arguments Throw {A} e.

Definition cbind {A B} (c : Completion A) (k : A -> Completion B)
  : Completion B :=
  match c with
  | Return a => k a
  | Throw e => Throw e
  end.

(** ToBoolean. *)
Definition truthy (v : Value) : bool :=
  match v with
  | VUndefined | VNull => false
  | VBool b => b
  | VNum n => negb (n =? 0)%Z
  | VStr s => negb (s =? "")
  | VObj _ => true
  end.

(** [a || b] on values whose evaluation has no effect. *)
Definition or (a b : Value) : Value := if truthy a then a else b.

Fixpoint own_property (key : string) (props : list (string * Value)) : Value :=
  match props with
  | [] => VUndefined
  | (k, v) :: rest => if k =? key then v else own_property key rest
  end.

(** [v.key]: a [TypeError] on [undefined] and [null], the own property of
    an object, [undefined] on the other primitives (none of the keys the
    bus reads is a built-in property of a string, number or boolean). *)
Definition get (v : Value) (key : string) : Completion Value :=
  match v with
  | VUndefined =>
      Throw (TypeError ("Cannot read properties of undefined (reading '" ++ key ++ "')"))
  | VNull =>
      Throw (TypeError ("Cannot read properties of null (reading '" ++ key ++ "')"))
  | VObj props => Return (own_property key props)
  | VBool _ | VNum _ | VStr _ => Return VUndefined
  end.

(** [a === b], which on these values is also the SameValueZero of
    [Map] keys and of [Array.prototype.includes].  Two objects are equal
    only when they are the same reference; payload objects are allocated
    per event, so two object values of the model are never equal. *)
Definition strict_eq (a b : Value) : bool :=
  match a, b with
  | VUndefined, VUndefined => true
  | VNull, VNull => true
  | VBool x, VBool y => Bool.eqb x y
  | VNum x, VNum y => (x =? y)%Z
  | VStr x, VStr y => (x =? y)
  | _, _ => false
  end.

(** [{...props, key: v}]: the property keeps its place when the object has
    it already and is added at the end when not. *)
Fixpoint props_set (key : string) (v : Value) (props : list (string * Value))
  : list (string * Value) :=
  match props with
  | [] => [(key, v)]
  | (k, v') :: rest =>
      if k =? key then (k, v) :: rest else (k, v') :: props_set key v rest
  end.

Definition has_own_property (key : string) (props : list (string * Value)) : bool :=
  existsb (fun kv => fst kv =? key) props.

(** [{...a, ...b}] on the own properties of two objects. *)
Definition spread (a b : list (string * Value)) : list (string * Value) :=
  fold_left (fun acc kv => props_set (fst kv) (snd kv) acc) b a.

(** The own properties an object spread copies: those of an object, none
    for [undefined], [null], a number or a boolean (a string would spread
    its characters; no caller spreads one). *)
Definition own_properties (v : Value) : list (string * Value) :=
  match v with
  | VObj props => props
  | _ => []
  end.

(** [String(v)], as a template literal applies it; [number_toString] is
    [Number.prototype.toString]. *)
Section ToString.
Variable number_toString : Z -> string.

Definition to_string (v : Value) : string :=
  match v with
  | VUndefined => "undefined"
  | VNull => "null"
  | VBool true => "true"
  | VBool false => "false"
  | VNum n => number_toString n
  | VStr s => s
  | VObj _ => "[object Object]"
  end.
End ToString.

Definition is_primitive (v : Value) : bool :=
  match v with
  | VObj _ => false
  | _ => true
  end.

(** [String.prototype.startsWith] and [String.prototype.includes]. *)
Definition startsWith (s search : string) : bool := String.prefix search s.

Fixpoint includes (s search : string) : bool :=
  String.prefix search s ||
  match s with
  | EmptyString => false
  | String _ rest => includes rest search
  end.

(** ** [Map] *)
Section JsMap.
Context {K V : Type}.
Variable key_eq : K -> K -> bool.

Definition Map : Type := list (K * V).

Fixpoint map_get (k : K) (m : Map) : option V :=
  match m with
  | [] => None
  | (k', v) :: rest => if key_eq k' k then Some v else map_get k rest
  end.

Definition map_has (k : K) (m : Map) : bool :=
  match map_get k m with
  | Some _ => true
  | None => false
  end.

Fixpoint map_set (k : K) (v : V) (m : Map) : Map :=
  match m with
  | [] => [(k, v)]
  | (k', v') :: rest =>
      if key_eq k' k then (k', v) :: rest else (k', v') :: map_set k v rest
  end.

(** [m.get(k).field = ...]: the entry under [k], if any, is changed in
    place. *)
Fixpoint map_update (k : K) (f : V -> V) (m : Map) : Map :=
  match m with
  | [] => []
  | (k', v) :: rest =>
      if key_eq k' k then (k', f v) :: rest else (k', v) :: map_update k f rest
  end.

Definition map_keys (m : Map) : list K := List.map fst m.
Definition map_values (m : Map) : list V := List.map snd m.
Definition map_size (m : Map) : nat := List.length m.
End JsMap.
Arguments Map : clear implicits.

(** ** Arrays *)

(** [xs.slice(start)] *)
Definition slice {A} (start : Z) (xs : list A) : list A :=
  let len := Z.of_nat (List.length xs) in
  let k := if (start <? 0)%Z then Z.max (len + start) 0 else Z.min start len in
  skipn (Z.to_nat k) xs.

(** [xs.filter(callback)] with a callback that may throw. *)
Fixpoint filter_c {A} (callback : A -> Completion bool) (xs : list A)
  : Completion (list A) :=
  match xs with
  | [] => Return []
  | x :: rest =>
      cbind (callback x) (fun keep =>
      cbind (filter_c callback rest) (fun kept =>
      Return (if keep then x :: kept else kept)))
  end.

(** [xs.sort(comparefn)], as a stable insertion sort driven by the
    comparator: each element in turn goes in front of the first element of
    the sorted prefix that it compares below ([comparefn(x, y) < 0]). *)
Section Sort.
Context {A : Type}.
Variable comparefn : A -> A -> Z.

Fixpoint sort_insert (x : A) (sorted : list A) : list A :=
  match sorted with
  | [] => [x]
  | y :: rest =>
      if (comparefn x y <? 0)%Z then x :: y :: rest
      else y :: sort_insert x rest
  end.

Definition array_sort (xs : list A) : list A :=
  fold_left (fun sorted x => sort_insert x sorted) xs [].
End Sort.

(** ** Methods: state and exceptions *)
Section Monad.
Context {S : Type}.

Definition M (A : Type) : Type := S -> Completion A * S.

Definition ret {A} (a : A) : M A := fun st => (Return a, st).

Definition bind {A B} (c : M A) (k : A -> M B) : M B :=
  fun st =>
    match c st with
    | (Return a, st') => k a st'
    | (Throw e, st') => (Throw e, st')
    end.

Definition throw {A} (e : Error) : M A := fun st => (Throw e, st).

(** [try { body } catch (error) { handler }] *)
Definition try_catch {A} (body : M A) (handler : Error -> M A) : M A :=
  fun st =>
    match body st with
    | (Return a, st') => (Return a, st')
    | (Throw e, st') => handler e st'
    end.

Definition gets {A} (f : S -> A) : M A := fun st => (Return (f st), st).
Definition modify (f : S -> S) : M unit := fun st => (Return tt, f st).

(** A computation that cannot touch the state. *)
Definition pure {A} (c : Completion A) : M A := fun st => (c, st).

(** [for (const x of xs) { body }] *)
Fixpoint for_of {A} (xs : list A) (body : A -> M unit) : M unit :=
  match xs with
  | [] => ret tt
  | x :: rest => bind (body x) (fun _ => for_of rest body)
  end.
End Monad.
Arguments M : clear implicits.

End Js.

Declare Scope js_scope.
Delimit Scope js_scope with js.
Notation "x <- c1 ;; c2" := (Js.bind c1 (fun x => c2))
  (at level 61, c1 at next level, right associativity) : js_scope.
Notation "c1 ;; c2" := (Js.bind c1 (fun _ => c2))
  (at level 61, right associativity) : js_scope.
Notation "x <~ c1 ;; c2" := (Js.cbind c1 (fun x => c2))
  (at level 61, c1 at next level, right associativity) : js_scope.

(* ===================================================================== *)
(** * [MessageManager]: the bus *)
(* ===================================================================== *)

Module MessageManager.
Import Js.
Local Open Scope js_scope.

(** ** Data model *)

(** [moment(x)] of an ISO-8601 string is an instant; [isAfter] and
    [isBefore] compare instants, so a timestamp is kept as its instant in
    milliseconds. *)
Definition Timestamp : Type := Z.

Definition isAfter (a b : Timestamp) : bool := (b <? a)%Z.
Definition isBefore (a b : Timestamp) : bool := (a <? b)%Z.

(** The canonical message built by [normalizeMessage]: the six fields of
    [baseMessage] and the six fields every branch of the [switch] adds. *)
Record Message : Type := mkMessage {
  msg_id : string;
  msg_platform : string;
  msg_timestamp : Timestamp;
  msg_processed : bool;
  msg_reactions : list Value;
  msg_attachments : list Value;
  msg_content : Value;
  msg_author : Value;
  msg_channelId : Value;
  msg_channelName : Value;
  msg_messageId : Value;
  msg_type : Value
}.

(** The [options] argument of the send methods.  The bus reads only
    [options.channels]; [None] is an absent property and [Some l] an array
    (an array is truthy even when empty). *)
Record Options : Type := mkOptions { opt_channels : option (list Value) }.

Definition no_options : Options := mkOptions None.

(** One invocation of an adapter's [sendMessage]. *)
Record SendCall : Type := mkSendCall {
  call_platform : string;
  call_channelId : Value;
  call_content : Value;
  call_options : Options
}.

(** A registered integration.  Its [sendMessage(channelId, content,
    options)] resolves with a result or rejects with an error; the outcome
    may depend on the calls the adapters have served before. *)
Record Adapter : Type := mkAdapter {
  adapter_sendMessage :
    list SendCall -> Value -> Value -> Options -> Completion Value
}.

(** A registered AI agent: [processMessage(message)] resolves with the
    reply (a string, or a falsy value for no reply) or rejects. *)
Record Agent : Type := mkAgent {
  processMessage : Message -> Completion Value
}.

(** What the bus emits to its subscribers. *)
Inductive Event : Type :=
| message_event (m : Message)
| message_sent_event (m : Message)
| integration_status_event (platform : string) (status : Value).

(** The fields of [this], the two oracle counters, and the two logs of
    what left the bus: emitted events and adapter invocations. *)
Record Bus : Type := mkBus {
  messages : Map string Message;
  integrations : Map string Adapter;
  aiAgents : Map Value Agent;
  uuid_calls : nat;
  clock_reads : nat;
  emitted : list Event;
  adapter_calls : list SendCall
}.

(** [constructor()] *)
Definition new_MessageManager : Bus := mkBus [] [] [] 0 0 [] [].

Definition set_messages (f : Map string Message -> Map string Message) (st : Bus) : Bus :=
  mkBus (f (messages st)) (integrations st) (aiAgents st)
        (uuid_calls st) (clock_reads st) (emitted st) (adapter_calls st).

Definition set_integrations (f : Map string Adapter -> Map string Adapter) (st : Bus) : Bus :=
  mkBus (messages st) (f (integrations st)) (aiAgents st)
        (uuid_calls st) (clock_reads st) (emitted st) (adapter_calls st).


Definition tick_uuid (st : Bus) : Bus :=
  mkBus (messages st) (integrations st) (aiAgents st)
        (S (uuid_calls st)) (clock_reads st) (emitted st) (adapter_calls st).

Definition tick_clock (st : Bus) : Bus :=
  mkBus (messages st) (integrations st) (aiAgents st)
        (uuid_calls st) (S (clock_reads st)) (emitted st) (adapter_calls st).

Definition log_event (e : Event) (st : Bus) : Bus :=
  mkBus (messages st) (integrations st) (aiAgents st)
        (uuid_calls st) (clock_reads st) (emitted st ++ [e]) (adapter_calls st).

Definition log_call (c : SendCall) (st : Bus) : Bus :=
  mkBus (messages st) (integrations st) (aiAgents st)
        (uuid_calls st) (clock_reads st) (emitted st) (adapter_calls st ++ [c]).

(** [this.emit(...)] *)
Definition emit (e : Event) : M Bus unit := modify (log_event e).

(** [await integration.sendMessage(channelId, content, options)] *)
Definition call_sendMessage (integration : Adapter) (platform : string)
    (channelId content : Value) (options : Options) : M Bus Value :=
  fun st =>
    (adapter_sendMessage integration (adapter_calls st) channelId content options,
     log_call (mkSendCall platform channelId content options) st).

(** ** [getMessageType] *)
Definition getMessageType (message : Value) : Completion Value :=
  photo <~ get message "photo" ;;
  if truthy photo then Return (VStr "photo") else
  video <~ get message "video" ;;
  if truthy video then Return (VStr "video") else
  audio <~ get message "audio" ;;
  if truthy audio then Return (VStr "audio") else
  voice <~ get message "voice" ;;
  if truthy voice then Return (VStr "voice") else
  document <~ get message "document" ;;
  if truthy document then Return (VStr "document") else
  sticker <~ get message "sticker" ;;
  if truthy sticker then Return (VStr "sticker") else
  Return (VStr "text").

Section Oracles.
(** The [n]-th identifier [uuidv4()] returns and the [n]-th instant
    [moment()] reads. *)
Variable uuidv4 : nat -> string.
Variable clock : nat -> Timestamp.

Definition call_uuidv4 : M Bus string :=
  fun st => (Return (uuidv4 (uuid_calls st)), tick_uuid st).

Definition moment_now : M Bus Timestamp :=
  fun st => (Return (clock (clock_reads st)), tick_clock st).

(** ** [normalizeMessage] *)
Definition normalizeMessage (platform : string) (rawMessage : Value)
  : M Bus Message :=
  id <- call_uuidv4 ;;
  timestamp <- moment_now ;;
  let baseMessage := mkMessage id platform timestamp false [] [] in
  if platform =? "telegram" then
    pure (
      text <~ get rawMessage "text" ;;
      caption <~ get rawMessage "caption" ;;
      from <~ get rawMessage "from" ;;
      from_id <~ get from "id" ;;
      from_username <~ get from "username" ;;
      from_first_name <~ get from "first_name" ;;
      from_last_name <~ get from "last_name" ;;
      chat <~ get rawMessage "chat" ;;
      chat_id <~ get chat "id" ;;
      chat_title <~ get chat "title" ;;
      chat_first_name <~ get chat "first_name" ;;
      message_id <~ get rawMessage "message_id" ;;
      type <~ getMessageType rawMessage ;;
      Return (baseMessage
        (or text (or caption (VStr "[Media]")))
        (VObj [("id", from_id); ("username", from_username);
               ("firstName", from_first_name); ("lastName", from_last_name)])
        chat_id
        (or chat_title chat_first_name)
        message_id
        type))
  else if platform =? "slack" then
    pure (
      text <~ get rawMessage "text" ;;
      user <~ get rawMessage "user" ;;
      username <~ get rawMessage "username" ;;
      channel <~ get rawMessage "channel" ;;
      channel_name <~ get rawMessage "channel_name" ;;
      ts <~ get rawMessage "ts" ;;
      subtype <~ get rawMessage "subtype" ;;
      Return (baseMessage
        (or text (VStr "[Media]"))
        (VObj [("id", user); ("username", username)])
        channel
        channel_name
        ts
        (or subtype (VStr "message"))))
  else if platform =? "discord" then
    pure (
      content <~ get rawMessage "content" ;;
      author <~ get rawMessage "author" ;;
      author_id <~ get author "id" ;;
      author_username <~ get author "username" ;;
      author_discriminator <~ get author "discriminator" ;;
      channel <~ get rawMessage "channel" ;;
      channel_id <~ get channel "id" ;;
      channel_name <~ get channel "name" ;;
      id' <~ get rawMessage "id" ;;
      type <~ get rawMessage "type" ;;
      Return (baseMessage
        (or content (VStr "[Media]"))
        (VObj [("id", author_id); ("username", author_username);
               ("discriminator", author_discriminator)])
        channel_id
        channel_name
        id'
        type))
  else
    content <- pure (get rawMessage "content") ;;
    text <- pure (get rawMessage "text") ;;
    author <- pure (get rawMessage "author") ;;
    channelId <- pure (get rawMessage "channelId") ;;
    channelName <- pure (get rawMessage "channelName") ;;
    id' <- pure (get rawMessage "id") ;;
    messageId <- (if truthy id' then ret id'
                  else (fresh <- call_uuidv4 ;; ret (VStr fresh))) ;;
    ret (baseMessage
      (or content (or text (VStr "[Unknown]")))
      (or author (VObj [("id", VStr "unknown"); ("username", VStr "Unknown")]))
      (or channelId (VStr "unknown"))
      (or channelName (VStr "Unknown"))
      messageId
      (VStr "message")).

(** ** [shouldProcessWithAI] *)
Definition shouldProcessWithAI (st : Bus) (message : Message)
  : Completion bool :=
  match msg_content message with
  | VStr content =>
      Return (includes content "@ai" ||
              startsWith content "/ai" ||
              map_has strict_eq (msg_channelId message) (aiAgents st))
  | VUndefined =>
      Throw (TypeError "Cannot read properties of undefined (reading 'includes')")
  | VNull =>
      Throw (TypeError "Cannot read properties of null (reading 'includes')")
  | VBool _ | VNum _ | VObj _ =>
      Throw (TypeError "message.content.includes is not a function")
  end.

(** ** [sendMessage] *)
Definition sendMessage (platform : string) (channelId content : Value)
    (options : Options) : M Bus Value :=
  integration <- gets (fun st => map_get String.eqb platform (integrations st)) ;;
  match integration with
  | None => throw (new_Error ("No integration found for platform: " ++ platform))
  | Some integration =>
      try_catch (
        result <- call_sendMessage integration platform channelId content options ;;
        messageId <- pure (get result "messageId") ;;
        message_id <- (if truthy messageId then ret messageId
                       else (fresh <- call_uuidv4 ;; ret (VStr fresh))) ;;
        message <- normalizeMessage platform (VObj [
          ("text", content);
          ("from", VObj [("id", VStr "bot"); ("username", VStr "UnifiMessenger")]);
          ("chat", VObj [("id", channelId)]);
          ("message_id", message_id)]) ;;
        modify (set_messages (map_set String.eqb (msg_id message) message)) ;;
        emit (message_sent_event message) ;;
        ret result)
      (fun error => throw error)
  end.

(** ** [processWithAI] *)
Definition select_agent (st : Bus) (message : Message) : option Agent :=
  match map_get strict_eq (msg_channelId message) (aiAgents st) with
  | Some aiAgent => Some aiAgent
  | None => map_get strict_eq (VStr "global") (aiAgents st)
  end.

Definition processWithAI (message : Message) : M Bus unit :=
  try_catch (
    aiAgent <- gets (fun st => select_agent st message) ;;
    match aiAgent with
    | None => ret tt
    | Some aiAgent =>
        response <- pure (processMessage aiAgent message) ;;
        if truthy response then
          sendMessage (msg_platform message) (msg_channelId message)
                      response no_options ;;
          ret tt
        else ret tt
    end)
  (fun error => ret tt).

(** ** [handleIncomingMessage] *)
Definition handleIncomingMessage (platform : string) (rawMessage : Value)
  : M Bus unit :=
  message <- normalizeMessage platform rawMessage ;;
  modify (set_messages (map_set String.eqb (msg_id message) message)) ;;
  emit (message_event message) ;;
  triggered <- (fun st => (shouldProcessWithAI st message, st)) ;;
  if triggered then processWithAI message else ret tt.

(** ** [registerIntegration], [registerAIAgent]

    The two listeners [registerIntegration] installs are the bus's entry
    points for adapter events: a [message] event of the adapter is a call
    of [handleIncomingMessage platform]. *)
Definition registerIntegration (platform : string) (integration : Adapter)
  : M Bus unit :=
  modify (set_integrations (map_set String.eqb platform integration)).


(** ** [getActiveChannels] *)
Definition getActiveChannels (st : Bus) (platform : string) : list Value :=
  fold_left
    (fun channels message =>
       if (msg_platform message =? platform) &&
          negb (existsb (strict_eq (msg_channelId message)) channels)
       then channels ++ [msg_channelId message]
       else channels)
    (map_values (messages st)) [].

(** ** [sendCrossChannelMessage] *)

(** An entry of [results]: [{platform, channelId, result}] or
    [{platform, error}]. *)
Inductive Delivery : Type :=
| delivered (platform : string) (channelId : Value) (result : Value)
| failed (platform : string) (error : string).

(** The loop runs on the bus and on the local array [results]. *)
Definition on_bus {A} (c : M Bus A) : M (Bus * list Delivery) A :=
  fun s =>
    match c (fst s) with
    | (r, st') => (r, (st', snd s))
    end.

Definition push (d : Delivery) : M (Bus * list Delivery) unit :=
  modify (fun s => (fst s, snd s ++ [d])).

Definition send_to_platform (content : Value) (options : Options)
    (entry : string * Adapter) : M (Bus * list Delivery) unit :=
  let platform := fst entry in
  try_catch (
    channels <- on_bus (gets (fun st =>
      match opt_channels options with
      | Some channels => channels
      | None => getActiveChannels st platform
      end)) ;;
    for_of channels (fun channelId =>
      result <- on_bus (sendMessage platform channelId content options) ;;
      push (delivered platform channelId result)))
  (fun error => push (failed platform (message error))).

Definition sendCrossChannelMessage (content : Value) (options : Options)
  : M Bus (list Delivery) :=
  fun st =>
    match for_of (integrations st) (send_to_platform content options) (st, []) with
    | (Return _, (st', results)) => (Return results, st')
    | (Throw e, (st', _)) => (Throw e, st')
    end.

(** ** [getMessages] *)

(** The [filters] argument.  [filter_since] is [None] for an absent
    property and [Some t] for a date string read as the instant [t] (a
    date string is not empty, hence truthy); [filter_limit] is the number
    given, if any. *)
Record Filters : Type := mkFilters {
  filter_platform : Value;
  filter_channelId : Value;
  filter_author : Value;
  filter_since : option Timestamp;
  filter_limit : option Z
}.

Definition no_filters : Filters :=
  mkFilters VUndefined VUndefined VUndefined None None.

Definition compare_timestamps (a b : Message) : Z :=
  if isBefore (msg_timestamp a) (msg_timestamp b) then (-1)%Z else 1%Z.

Definition getMessages (st : Bus) (filters : Filters)
  : Completion (list Message) :=
  let messages0 := map_values (messages st) in
  let messages1 :=
    if truthy (filter_platform filters) then
      filter (fun msg => strict_eq (VStr (msg_platform msg)) (filter_platform filters))
             messages0
    else messages0 in
  let messages2 :=
    if truthy (filter_channelId filters) then
      filter (fun msg => strict_eq (msg_channelId msg) (filter_channelId filters))
             messages1
    else messages1 in
  messages3 <~
    (if truthy (filter_author filters) then
       filter_c (fun msg =>
         username <~ get (msg_author msg) "username" ;;
         if strict_eq username (filter_author filters) then Return true
         else
           id <~ get (msg_author msg) "id" ;;
           Return (strict_eq id (filter_author filters)))
         messages2
     else Return messages2) ;;
  let messages4 :=
    match filter_since filters with
    | Some since => filter (fun msg => isAfter (msg_timestamp msg) since) messages3
    | None => messages3
    end in
  let messages5 :=
    match filter_limit filters with
    | Some limit =>
        if (limit =? 0)%Z then messages4 else slice (- limit) messages4
    | None => messages4
    end in
  Return (array_sort compare_timestamps messages5).

End Oracles.

(** ** [getChannels] *)

(** An entry of the channel view. *)
Record Channel : Type := mkChannel {
  ch_platform : string;
  ch_id : Value;
  ch_name : Value;
  ch_lastMessage : Timestamp;
  ch_messageCount : nat
}.

Definition count_message (c : Channel) : Channel :=
  mkChannel (ch_platform c) (ch_id c) (ch_name c) (ch_lastMessage c)
            (S (ch_messageCount c)).

Definition set_lastMessage (t : Timestamp) (c : Channel) : Channel :=
  mkChannel (ch_platform c) (ch_id c) (ch_name c) t (ch_messageCount c).

Section Channels.
Variable number_toString : Z -> string.

(** [`${message.platform}:${message.channelId}`] *)
Definition channel_key (message : Message) : string :=
  msg_platform message ++ ":" ++ to_string number_toString (msg_channelId message).

(** The body of the loop of [getChannels] for one message.  After the
    first step the key is in the map, so both [channels.get(key)] find the
    entry. *)
Definition see_message (channels : Map string Channel) (message : Message)
  : Map string Channel :=
  let key := channel_key message in
  let channels1 :=
    if map_has String.eqb key channels then channels
    else map_set String.eqb key
           (mkChannel (msg_platform message) (msg_channelId message)
                      (msg_channelName message) (msg_timestamp message) 0)
           channels in
  let channels2 := map_update String.eqb key count_message channels1 in
  match map_get String.eqb key channels2 with
  | Some channel =>
      if isAfter (msg_timestamp message) (ch_lastMessage channel)
      then map_update String.eqb key (set_lastMessage (msg_timestamp message)) channels2
      else channels2
  | None => channels2
  end.

Definition getChannels (st : Bus) : list Channel :=
  map_values (fold_left see_message (map_values (messages st)) []).
End Channels.

End MessageManager.

(* ===================================================================== *)
(** * [BaseIntegration]: the reconnection procedure *)
(* ===================================================================== *)

Module BaseIntegration.
Import Js.

(** What [handleReconnect] does to the outside: it arms a timer, the timer
    callback calls [this.connect()], and at the end it emits [error]. *)
Inductive Effect : Type :=
| timeout_set (delay : nat)
| connect_called
| error_emitted (error : Error).

(** The fields of [this] the procedure reads and writes, the number of
    [connect()] calls made so far, and the effects in the order they
    happened. *)
Record Integration : Type := mkIntegration {
  connected : bool;
  reconnectAttempts : nat;
  maxReconnectAttempts : nat;
  reconnectDelay : nat;
  connect_calls : nat;
  effects : list Effect
}.

(** [constructor(platform, config)] *)
Definition new_BaseIntegration : Integration :=
  mkIntegration false 0 5 1000 0 [].

Definition set_reconnectAttempts (n : nat) (this : Integration) : Integration :=
  mkIntegration (connected this) n (maxReconnectAttempts this)
                (reconnectDelay this) (connect_calls this) (effects this).

Definition log_effect (e : Effect) (this : Integration) : Integration :=
  mkIntegration (connected this) (reconnectAttempts this)
                (maxReconnectAttempts this) (reconnectDelay this)
                (connect_calls this) (effects this ++ [e]).

Definition count_connect (this : Integration) : Integration :=
  mkIntegration (connected this) (reconnectAttempts this)
                (maxReconnectAttempts this) (reconnectDelay this)
                (S (connect_calls this)) (effects this).

(** The state in which the timer callback finds [this]: the attempt is
    counted, the timer was armed with [reconnectDelay * reconnectAttempts]
    and [connect()] is being called. *)
Definition attempt (this : Integration) : Integration :=
  let this1 := set_reconnectAttempts (S (reconnectAttempts this)) this in
  let this2 :=
    log_effect (timeout_set (reconnectDelay this1 * reconnectAttempts this1)) this1 in
  count_connect (log_effect connect_called this2).

(** [handleReconnect()], with the timer callback run when it is due.
    [connect n] is the outcome of the [n]-th call of [this.connect()]. *)
Equations? handleReconnect (connect : nat -> Completion unit) (this : Integration)
  : Integration
  by wf (maxReconnectAttempts this - reconnectAttempts this) lt :=
handleReconnect connect this
  with le_lt_dec (maxReconnectAttempts this) (reconnectAttempts this) := {
  | left _ =>
      log_effect (error_emitted (new_Error "Max reconnect attempts reached")) this
  | right _ =>
      match connect (connect_calls this) with
      | Return _ => set_reconnectAttempts 0 (attempt this)
      | Throw _ => handleReconnect connect (attempt this)
      end }.
Proof. simpl. lia. Qed.


(** The timers and [connect()] calls of the attempts numbered
    [first], ..., [first + count - 1] with base delay [base]. *)
Definition attempts_trace (base first count : nat) : list Effect :=
  flat_map (fun k => [timeout_set (base * k); connect_called]) (seq first count).

Definition count_attempts (trace : list Effect) : nat :=
  List.length (filter (fun e => match e with connect_called => true | _ => false end) trace).

Definition count_errors (trace : list Effect) : nat :=
  List.length (filter (fun e => match e with error_emitted _ => true | _ => false end) trace).

(** [updateConfig(newConfig)]: the new value of [this.config], which is
    [{ ...this.config, ...newConfig }]. *)
Definition updateConfig (config newConfig : Value) : Value :=
  VObj (spread (spread [] (own_properties config)) (own_properties newConfig)).

End BaseIntegration.

(* ===================================================================== *)
(** * The adapters' inbound side *)
(* ===================================================================== *)

Module Adapters.
Import Js.

(** [SlackIntegration.handleMessage(args)], after [ack()]: what it hands
    to [emitMessage], if anything.  [channels] and [users] are the
    adapter's caches. *)
Definition slack_handleMessage (channels users : Map Value Value) (event : Value)
  : Completion (option Value) :=
  if negb (truthy event) then Return None else
  cbind (get event "subtype") (fun subtype =>
  if strict_eq subtype (VStr "bot_message") then Return None else
  cbind (get event "channel") (fun event_channel =>
  cbind (get event "user") (fun event_user =>
  let channel := map_get strict_eq event_channel channels in
  let user := map_get strict_eq event_user users in
  cbind (get event "text") (fun text =>
  cbind (get event "ts") (fun ts =>
  cbind (get event "thread_ts") (fun thread_ts =>
  cbind (match user with
         | Some user => if truthy user then get user "name" else Return (VStr "Unknown")
         | None => Return (VStr "Unknown")
         end) (fun username =>
  cbind (match channel with
         | Some channel => if truthy channel then get channel "name" else Return (VStr "Unknown")
         | None => Return (VStr "Unknown")
         end) (fun channel_name =>
  Return (Some (VObj [
    ("text", text);
    ("user", event_user);
    ("channel", event_channel);
    ("ts", ts);
    ("thread_ts", thread_ts);
    ("username", username);
    ("channel_name", channel_name);
    ("platform", VStr "slack")])))))))))).

(** [TelegramIntegration.handleMessage(ctx, isEdit)]: the new [this.chats]
    and what it hands to [emitMessage], if anything. *)
Definition telegram_handleMessage (chats : Map Value Value) (ctx : Value)
    (isEdit : bool) : Completion (Map Value Value * option Value) :=
  cbind (get ctx "message") (fun ctx_message =>
  cbind (if truthy ctx_message then Return ctx_message
         else get ctx "editedMessage") (fun message =>
  if negb (truthy message) then Return (chats, None) else
  cbind (get message "chat") (fun chat =>
  cbind (get chat "id") (fun chat_id =>
  cbind (get chat "type") (fun chat_type =>
  cbind (get chat "title") (fun chat_title =>
  cbind (get chat "username") (fun chat_username =>
  cbind (get chat "first_name") (fun chat_first_name =>
  cbind (get chat "last_name") (fun chat_last_name =>
  let chats' := map_set strict_eq chat_id (VObj [
    ("id", chat_id);
    ("type", chat_type);
    ("title", chat_title);
    ("username", chat_username);
    ("firstName", chat_first_name);
    ("lastName", chat_last_name)]) chats in
  let processedMessage :=
    VObj (props_set "platform" (VStr "telegram")
           (props_set "isEdit" (VBool isEdit) (own_properties message))) in
  Return (chats', Some processedMessage)))))))))).

End Adapters.

(* ===================================================================== *)
(** * Vocabulary of the statements *)
(* ===================================================================== *)

Module Scenario.
Import Js MessageManager.

(** [s] contains [sub] as a substring; [s] starts with [pre]. *)
Definition contains (s sub : string) : Prop :=
  exists before after, s = (before ++ sub ++ after)%string.

Definition starts_with (s pre : string) : Prop :=
  exists after, s = (pre ++ after)%string.

(** The channel [channelId] has an AI-agent binding registered. *)
Definition has_binding (st : Bus) (channelId : Value) : Prop :=
  exists key agent,
    In (key, agent) (aiAgents st) /\ strict_eq key channelId = true.

(** The Telegram payload
    [{text: "hi", from: {id: 1, username: "bob"},
      chat: {id: 42, title: "Team"}, message_id: 99}]. *)
Definition telegram_hi : Value :=
  VObj [("text", VStr "hi");
        ("from", VObj [("id", VNum 1); ("username", VStr "bob")]);
        ("chat", VObj [("id", VNum 42); ("title", VStr "Team")]);
        ("message_id", VNum 99)].

(** Sample oracles: the identifiers ["x"], ["xx"], ... and a clock that
    advances by one millisecond per reading. *)
Fixpoint sample_uuid (n : nat) : string :=
  match n with
  | O => "x"
  | S k => String "x" (sample_uuid k)
  end.

Definition sample_clock (n : nat) : Timestamp := (1000 + Z.of_nat n)%Z.

(** Sample adapters: one whose send always resolves with
    [{messageId: "m1"}], one that rejects for channel ["c1"] only. *)
Definition adapter_ok : Adapter :=
  mkAdapter (fun _ _ _ _ => Return (VObj [("messageId", VStr "m1")])).

Definition adapter_fails_on_c1 : Adapter :=
  mkAdapter (fun _ channelId _ _ =>
    if strict_eq channelId (VStr "c1") then Throw (new_Error "channel not found")
    else Return (VObj [("messageId", VStr "m1")])).

Definition adapter_down : Adapter :=
  mkAdapter (fun _ _ _ _ => Throw (new_Error "not connected")).

Definition with_integrations (l : Map string Adapter) : Bus :=
  set_integrations (fun _ => l) new_MessageManager.

(** A message with the given content and channel, for the trigger
    predicate. *)
Definition sample_message (platform : string) (content channelId : Value)
    (timestamp : Timestamp) (id : string) : Message :=
  mkMessage id platform timestamp false [] [] content
            (VObj [("id", VNum 1); ("username", VStr "bob")])
            channelId (VStr "Team") (VNum 99) (VStr "text").

Definition with_messages (l : list Message) : Bus :=
  set_messages (fun _ => List.map (fun m => (msg_id m, m)) l) new_MessageManager.

Definition platform_filter (P : string) : Filters :=
  mkFilters (VStr P) VUndefined VUndefined None None.

Definition limit_filter (n : Z) : Filters :=
  mkFilters VUndefined VUndefined VUndefined None (Some n).


Definition since_filter (T : Timestamp) : Filters :=
  mkFilters VUndefined VUndefined VUndefined (Some T) None.

Definition ascending (a b : Message) : Prop :=
  (msg_timestamp a <= msg_timestamp b)%Z.

(** [P] holds of whatever the completion returns. *)
Definition returns_with {A} (P : A -> Prop) (c : Completion A) : Prop :=
  forall a, c = Return a -> P a.

Section Runs.
Variable uuidv4 : nat -> string.
Variable clock : nat -> Timestamp.

(** The raw payload [sendMessage] hands to [normalizeMessage] for its own
    outbound message. *)
Definition outbound_payload (channelId content message_id : Value) : Value :=
  VObj [("text", content);
        ("from", VObj [("id", VStr "bot"); ("username", VStr "UnifiMessenger")]);
        ("chat", VObj [("id", channelId)]);
        ("message_id", message_id)].

(** The channels [sendCrossChannelMessage] resolves for a platform:
    [options.channels || this.getActiveChannels(platform)]. *)
Definition resolve_channels (options : Options) (st : Bus) (platform : string)
  : list Value :=
  match opt_channels options with
  | Some channels => channels
  | None => getActiveChannels st platform
  end.

(** What a broadcast does on one platform, channel by channel: every
    [sendMessage] that returns is recorded as [delivered] and the next
    channel is tried; the first [sendMessage] that throws is recorded as
    [failed] and ends the platform. *)
Inductive platform_run (platform : string) (content : Value) (options : Options)
  : list Value -> Bus -> list Delivery -> Bus -> Prop :=
| platform_done st :
    platform_run platform content options [] st [] st
| platform_delivered channelId rest st result st1 entries st2 :
    sendMessage uuidv4 clock platform channelId content options st = (Return result, st1) ->
    platform_run platform content options rest st1 entries st2 ->
    platform_run platform content options (channelId :: rest) st
                 (delivered platform channelId result :: entries) st2
| platform_failed channelId rest st error st1 :
    sendMessage uuidv4 clock platform channelId content options st = (Throw error, st1) ->
    platform_run platform content options (channelId :: rest) st
                 [failed platform (message error)] st1.

(** What a broadcast does over the registered platforms, in registration
    order: each platform is run on the state the previous one left,
    whether that one failed or not. *)
Inductive cross_run (content : Value) (options : Options)
  : list (string * Adapter) -> Bus -> list Delivery -> Bus -> Prop :=
| cross_done st :
    cross_run content options [] st [] st
| cross_platform platform integration rest st entries st1 entries' st2 :
    platform_run platform content options
                 (resolve_channels options st platform) st entries st1 ->
    cross_run content options rest st1 entries' st2 ->
    cross_run content options ((platform, integration) :: rest) st
              (entries ++ entries') st2.

(** The adapter of [platform] was asked to send to [channelId]. *)
Definition attempted (st : Bus) (platform : string) (channelId : Value) : Prop :=
  exists call,
    In call (adapter_calls st) /\
    call_platform call = platform /\ call_channelId call = channelId.

(** ** Histories of the bus *)








(** The bus, read from the state of a method of the bus. *)
Definition on_the_bus (st : Bus) : Bus := st.


End Runs.

(** A computation whose start and end states are related by [R]. *)
Definition stable {S A : Type} (R : Bus -> Bus -> Prop) (proj : S -> Bus)
    (c : M S A) : Prop :=
  forall s r s', c s = (r, s') -> R (proj s) (proj s').

(** The registries are as they were, and the log of adapter calls has
    only grown. *)
Definition registry_kept (st st' : Bus) : Prop :=
  integrations st' = integrations st /\
  aiAgents st' = aiAgents st /\
  exists more, adapter_calls st' = adapter_calls st ++ more.

(** The store has only grown by keys, and the log of emitted events has
    only grown. *)
Definition outputs_kept (st st' : Bus) : Prop :=
  (forall k, map_has String.eqb k (messages st) = true ->
             map_has String.eqb k (messages st') = true) /\
  exists more, emitted st' = emitted st ++ more.




(** The messages counted by a channel view. *)
Definition total_count (channels : list Channel) : nat :=
  fold_right (fun c n => ch_messageCount c + n) 0 channels.

(** The names [getMessageType] can return. *)
Definition message_types : list string :=
  ["photo"; "video"; "audio"; "voice"; "document"; "sticker"; "text"].

(** [Number.prototype.toString] on the integers: the decimal numeral. *)
Definition decimal (n : Z) : string :=
  DecimalString.NilZero.string_of_int (Z.to_int n).



(** A bus with two adapters; the first one rejects sends to ["c1"]. *)
Definition two_platforms : Bus :=
  with_integrations [("telegram", adapter_fails_on_c1); ("slack", adapter_ok)].

End Scenario.

(* ===================================================================== *)
(** * Facts about values, strings, maps and arrays *)
(* ===================================================================== *)

Import Js MessageManager Scenario.

Lemma prefix_starts_with (pre s : string) :
  String.prefix pre s = true <-> starts_with s pre.
Proof.
  unfold starts_with. revert s.
  induction pre as [|a pre IH]; intros s; simpl.
  - destruct s; simpl; split; eauto.
  - destruct s as [|b s]; simpl.
    + split; [discriminate | intros [after H]; discriminate].
    + destruct (ascii_dec a b) as [->|Hne].
      * rewrite IH. split; intros [after H]; exists after.
        -- now rewrite H.
        -- now injection H.
      * split; [discriminate|]. intros [after H]. injection H as H1 H2.
        congruence.
Qed.

Lemma includes_contains (s sub : string) :
  includes s sub = true <-> contains s sub.
Proof.
  unfold contains. induction s as [|a s IH]; cbn [includes].
  - rewrite orb_false_r, prefix_starts_with. unfold starts_with. split.
    + intros [after H]. exists "", after. exact H.
    + intros [before [after H]]. destruct before; simpl in H.
      * eauto.
      * discriminate.
  - rewrite orb_true_iff, IH, prefix_starts_with. unfold starts_with. split.
    + intros [[after H] | [before [after H]]].
      * exists "", after. exact H.
      * exists (String a before), after. simpl. now rewrite H.
    + intros [before [after H]]. destruct before as [|b before]; simpl in H.
      * left. eauto.
      * right. injection H as _ H. eauto.
Qed.


Lemma strict_eq_eq (a b : Value) : strict_eq a b = true -> a = b.
Proof.
  destruct a, b; simpl; intros H; try discriminate; try reflexivity.
  - apply Bool.eqb_prop in H. now subst.
  - apply Z.eqb_eq in H. now subst.
  - apply String.eqb_eq in H. now subst.
Qed.

Section MapFacts.
Context {K V : Type}.
Variable key_eq : K -> K -> bool.

Lemma map_has_In (k : K) (m : Map K V) :
  map_has key_eq k m = true <->
  exists k' v, In (k', v) m /\ key_eq k' k = true.
Proof.
  unfold map_has. induction m as [|[k' v] m IH]; simpl.
  - split; [discriminate | intros (? & ? & [] & _)].
  - destruct (key_eq k' k) eqn:E.
    + split; [|reflexivity]. intros _. exists k', v. auto.
    + rewrite IH. split.
      * intros (k2 & v2 & Hin & Hk). exists k2, v2. auto.
      * intros (k2 & v2 & [Heq | Hin] & Hk).
        -- injection Heq as -> ->. congruence.
        -- exists k2, v2. auto.
Qed.

Lemma map_get_set_same (k : K) (v : V) (m : Map K V) :
  key_eq k k = true ->
  (forall a b, key_eq a b = true -> a = b) ->
  map_get key_eq k (map_set key_eq k v m) = Some v.
Proof.
  intros Hrefl Heq. induction m as [|[k' v'] m IH]; simpl.
  - now rewrite Hrefl.
  - destruct (key_eq k' k) eqn:E; simpl; now rewrite E.
Qed.


Lemma map_get_In_keys (k : K) (m : Map K V) :
  (forall a, key_eq a a = true) ->
  In k (map_keys m) -> exists v, map_get key_eq k m = Some v.
Proof.
  intros Hrefl. induction m as [|[k' v'] m IH]; simpl.
  - intros [].
  - intros [-> | Hin].
    + rewrite Hrefl. eauto.
    + destruct (key_eq k' k); eauto.
Qed.
End MapFacts.

(** The sort returns a permutation of its input, in ascending order of
    whatever the comparator ranks strictly. *)
Section SortFacts.
Context {A : Type}.
Variable comparefn : A -> A -> Z.

Lemma sort_insert_perm (x : A) (l : list A) :
  Permutation (sort_insert comparefn x l) (x :: l).
Proof.
  induction l as [|y l IH]; simpl.
  - reflexivity.
  - destruct (comparefn x y <? 0)%Z.
    + reflexivity.
    + rewrite IH. apply perm_swap.
Qed.

Lemma fold_insert_perm (l acc : list A) :
  Permutation (fold_left (fun sorted x => sort_insert comparefn x sorted) l acc)
              (acc ++ l).
Proof.
  revert acc. induction l as [|x l IH]; intros acc; simpl.
  - now rewrite app_nil_r.
  - rewrite IH, sort_insert_perm. apply Permutation_middle.
Qed.

Lemma array_sort_perm (l : list A) : Permutation (array_sort comparefn l) l.
Proof. unfold array_sort. now rewrite fold_insert_perm. Qed.

Variable le : A -> A -> Prop.
Hypothesis le_trans : forall a b c, le a b -> le b c -> le a c.
Hypothesis below : forall x y, (comparefn x y <? 0)%Z = true -> le x y.
Hypothesis not_below : forall x y, (comparefn x y <? 0)%Z = false -> le y x.

Lemma sort_insert_sorted (x : A) (l : list A) :
  StronglySorted le l -> StronglySorted le (sort_insert comparefn x l).
Proof.
  induction 1 as [|y l Hs IH Hall]; simpl.
  - constructor; constructor.
  - destruct (comparefn x y <? 0)%Z eqn:E.
    + constructor; [now constructor|].
      constructor; [now apply below|].
      eapply Forall_impl; [|exact Hall].
      intros z Hz. eapply le_trans; [apply below; exact E | exact Hz].
    + constructor; [exact IH|].
      eapply Permutation_Forall.
      * symmetry. apply sort_insert_perm.
      * constructor; [now apply not_below | exact Hall].
Qed.

Lemma array_sort_sorted (l : list A) : StronglySorted le (array_sort comparefn l).
Proof.
  unfold array_sort.
  assert (H : forall acc, StronglySorted le acc ->
    StronglySorted le (fold_left (fun sorted x => sort_insert comparefn x sorted) l acc)).
  { induction l as [|x l IH]; intros acc Hacc; simpl.
    - exact Hacc.
    - apply IH. now apply sort_insert_sorted. }
  apply H. constructor.
Qed.
End SortFacts.

(* ===================================================================== *)
(** * The reconnection bound *)
(* ===================================================================== *)

Section Reconnect.
Import BaseIntegration.

Lemma attempts_trace_step (base first count : nat) :
  attempts_trace base first (S count) =
  timeout_set (base * first) :: connect_called :: attempts_trace base (S first) count.
Proof. reflexivity. Qed.



End Reconnect.

(* ===================================================================== *)
(** * The bus: normalization, trigger predicate, unknown platform *)
(* ===================================================================== *)

Section Bus.
Variable uuidv4 : nat -> string.
Variable clock : nat -> Timestamp.

(** C5.  The Telegram payload [{text: "hi", from: {id: 1, username:
    "bob"}, chat: {id: 42, title: "Team"}, message_id: 99}] normalizes,
    in every state of the bus, to a message with content ["hi"], author
    id [1], author username ["bob"], channel id [42], channel name
    ["Team"], native message id [99] (field [messageId]) and message
    type ["text"] (field [type]). *)
Theorem normalize_telegram_example (st : Bus) :
  exists m st',
    normalizeMessage uuidv4 clock "telegram" telegram_hi st = (Return m, st') /\
    msg_platform m = "telegram" /\
    msg_content m = VStr "hi" /\
    get (msg_author m) "id" = Return (VNum 1) /\
    get (msg_author m) "username" = Return (VStr "bob") /\
    msg_channelId m = VNum 42 /\
    msg_channelName m = VStr "Team" /\
    msg_messageId m = VNum 99 /\
    msg_type m = VStr "text".
Proof.
  eexists. eexists. split; [reflexivity|].
  repeat split.
Qed.

(** C2.  When no adapter is registered for [platform], [sendMessage]
    throws [Error("No integration found for platform: " + platform)] and
    leaves the whole state as it was: no adapter call is logged and the
    message store is the same. *)
Theorem sendMessage_unknown_platform (st : Bus) (platform : string)
    (channelId content : Value) (options : Options) :
  map_get String.eqb platform (integrations st) = None ->
  sendMessage uuidv4 clock platform channelId content options st =
    (Throw (new_Error ("No integration found for platform: " ++ platform)), st).
Proof.
  intros Hnone. unfold sendMessage, bind, gets. rewrite Hnone. reflexivity.
Qed.

(** C4.  On a message with text content, [shouldProcessWithAI] returns
    [true] exactly when the content contains ["@ai"], or starts with
    ["/ai"], or the message's channel id is a key of [aiAgents]; so it is
    [true] on ["@ai what's the weather"] and [false] on ["hello"] when
    the channel has no binding. *)
Theorem ai_trigger_predicate :
  (forall st m content,
     msg_content m = VStr content ->
     exists b,
       shouldProcessWithAI st m = Return b /\
       (b = true <->
        contains content "@ai" \/ starts_with content "/ai" \/
        has_binding st (msg_channelId m))) /\
  (forall st m,
     msg_content m = VStr "@ai what's the weather" ->
     shouldProcessWithAI st m = Return true) /\
  (forall st m,
     msg_content m = VStr "hello" ->
     map_has strict_eq (msg_channelId m) (aiAgents st) = false ->
     shouldProcessWithAI st m = Return false).
Proof.
  split; [|split].
  - intros st m content Hc. unfold shouldProcessWithAI. rewrite Hc.
    eexists. split; [reflexivity|].
    rewrite !orb_true_iff, includes_contains. unfold startsWith.
    rewrite prefix_starts_with, map_has_In. unfold has_binding.
    tauto.
  - intros st m Hc. unfold shouldProcessWithAI. rewrite Hc. reflexivity.
  - intros st m Hc Hb. unfold shouldProcessWithAI. rewrite Hc, Hb. reflexivity.
Qed.

End Bus.

Lemma sendMessage_unknown_platform_witness :
  sendMessage sample_uuid sample_clock "mastodon" (VStr "c1") (VStr "hi") no_options
              (with_integrations [("telegram", adapter_ok)]) =
  (Throw (new_Error "No integration found for platform: mastodon"),
   with_integrations [("telegram", adapter_ok)]).
Proof.
  apply (sendMessage_unknown_platform sample_uuid sample_clock
           (with_integrations [("telegram", adapter_ok)]) "mastodon").
  reflexivity.
Defined.

Lemma ai_trigger_predicate_witness :
  shouldProcessWithAI new_MessageManager
    (sample_message "telegram" (VStr "@ai what's the weather") (VNum 42) 1000%Z "x")
    = Return true /\
  shouldProcessWithAI new_MessageManager
    (sample_message "telegram" (VStr "hello") (VNum 42) 1000%Z "x")
    = Return false.
Proof.
  split.
  - apply (proj1 (proj2 ai_trigger_predicate)). reflexivity.
  - apply (proj2 (proj2 ai_trigger_predicate)); reflexivity.
Defined.


(* ===================================================================== *)
(** * Queries on the store *)
(* ===================================================================== *)

Section Queries.

Lemma compare_below (x y : Message) :
  (compare_timestamps x y <? 0)%Z = true -> ascending x y.
Proof.
  unfold compare_timestamps, isBefore, ascending.
  destruct (msg_timestamp x <? msg_timestamp y)%Z eqn:E; [|discriminate].
  intros _. apply Z.ltb_lt in E. lia.
Qed.

Lemma compare_not_below (x y : Message) :
  (compare_timestamps x y <? 0)%Z = false -> ascending y x.
Proof.
  unfold compare_timestamps, isBefore, ascending.
  destruct (msg_timestamp x <? msg_timestamp y)%Z eqn:E; [discriminate|].
  intros _. apply Z.ltb_ge in E. exact E.
Qed.

Lemma ascending_trans (a b c : Message) :
  ascending a b -> ascending b c -> ascending a c.
Proof. unfold ascending. lia. Qed.

Lemma sort_by_timestamp_sorted (l : list Message) :
  StronglySorted ascending (array_sort compare_timestamps l).
Proof.
  apply array_sort_sorted.
  - exact ascending_trans.
  - exact compare_below.
  - exact compare_not_below.
Qed.

Lemma In_sorted_filter (keep : Message -> bool) (l : list Message) (m : Message) :
  In m (array_sort compare_timestamps (filter keep l)) <->
  In m l /\ keep m = true.
Proof.
  rewrite <- filter_In. split; apply Permutation_in.
  - apply array_sort_perm.
  - symmetry. apply array_sort_perm.
Qed.

(** C6.  [getMessages({since: T})] returns the stored messages whose
    timestamp is strictly after [T], each as often as it is stored and no
    other, in ascending order of timestamp; a message stamped [T] itself
    is not returned. *)
Theorem getMessages_since (st : Bus) (T : Timestamp) :
  exists result,
    getMessages st (since_filter T) = Return result /\
    Permutation result
      (filter (fun m => (T <? msg_timestamp m)%Z) (map_values (messages st))) /\
    (forall m, In m result <->
               In m (map_values (messages st)) /\ (T < msg_timestamp m)%Z) /\
    (forall m, In m result -> msg_timestamp m <> T) /\
    StronglySorted ascending result.
Proof.
  eexists. split; [reflexivity|].
  assert (Hin : forall m,
    In m (array_sort compare_timestamps
            (filter (fun msg => isAfter (msg_timestamp msg) T)
                    (map_values (messages st)))) <->
    In m (map_values (messages st)) /\ (T < msg_timestamp m)%Z).
  { intros m. rewrite In_sorted_filter. unfold isAfter.
    now rewrite Z.ltb_lt. }
  split; [apply array_sort_perm|].
  split; [exact Hin|].
  split; [|apply sort_by_timestamp_sorted].
  intros m Hm. apply Hin in Hm. lia.
Qed.

(** C7, as the code has it.  For a platform name [P] that is not the
    empty string, [getMessages({platform: P})] returns the stored
    messages whose platform is [P], each as often as it is stored and no
    other, in ascending order of timestamp, whatever the order of the
    store. *)
Theorem getMessages_platform (st : Bus) (P : string) :
  P <> "" ->
  exists result,
    getMessages st (platform_filter P) = Return result /\
    Permutation result
      (filter (fun m => msg_platform m =? P) (map_values (messages st))) /\
    (forall m, In m result <->
               In m (map_values (messages st)) /\ msg_platform m = P) /\
    StronglySorted ascending result.
Proof.
  intros HP.
  assert (Ht : truthy (VStr P) = true).
  { simpl. destruct (String.eqb_spec P ""); [contradiction | reflexivity]. }
  unfold getMessages, platform_filter. cbn -[array_sort truthy String.eqb].
  rewrite Ht. cbn -[array_sort String.eqb].
  eexists. split; [reflexivity|].
  split; [apply array_sort_perm|].
  split; [|apply sort_by_timestamp_sorted].
  intros m. rewrite In_sorted_filter. now rewrite String.eqb_eq.
Qed.

(** C7 fails for the empty platform name: the guard [if
    (filters.platform)] skips the filter, and a Telegram message comes
    back from [getMessages({platform: ""})]. *)
Lemma getMessages_empty_platform_unfiltered :
  ~ (forall st P result,
       getMessages st (platform_filter P) = Return result ->
       forall m, In m result -> msg_platform m = P).
Proof.
  intros H.
  specialize (H (with_messages [sample_message "telegram" (VStr "hi") (VNum 42) 1000%Z "x"])
                "" _ eq_refl _ (or_introl eq_refl)).
  discriminate H.
Qed.
End Queries.

Lemma getMessages_platform_witness :
  exists result,
    getMessages
      (with_messages [sample_message "telegram" (VStr "c") (VNum 42) 3000%Z "x";
                      sample_message "slack" (VStr "a") (VStr "C1") 1000%Z "xx";
                      sample_message "telegram" (VStr "b") (VNum 42) 2000%Z "xxx"])
      (platform_filter "telegram") = Return result /\
    result = [sample_message "telegram" (VStr "b") (VNum 42) 2000%Z "xxx";
              sample_message "telegram" (VStr "c") (VNum 42) 3000%Z "x"].
Proof.
  destruct (getMessages_platform
    (with_messages [sample_message "telegram" (VStr "c") (VNum 42) 3000%Z "x";
                    sample_message "slack" (VStr "a") (VStr "C1") 1000%Z "xx";
                    sample_message "telegram" (VStr "b") (VNum 42) 2000%Z "xxx"])
    "telegram") as (result & Hr & _).
  - discriminate.
  - exists result. split; [exact Hr|].
    vm_compute in Hr. now injection Hr.
Defined.

(* ===================================================================== *)
(** * Sending *)
(* ===================================================================== *)

Section Sending.
Variable uuidv4 : nat -> string.
Variable clock : nat -> Timestamp.

Lemma sendMessage_adapter_failure (st : Bus) (platform : string)
    (channelId content : Value) (options : Options)
    (integration : Adapter) (error : Error) :
  map_get String.eqb platform (integrations st) = Some integration ->
  adapter_sendMessage integration (adapter_calls st) channelId content options
    = Throw error ->
  exists st',
    sendMessage uuidv4 clock platform channelId content options st
      = (Throw error, st') /\
    messages st' = messages st /\
    emitted st' = emitted st /\
    adapter_calls st' =
      adapter_calls st ++ [mkSendCall platform channelId content options].
Proof.
  intros Hget Hsend. eexists. split.
  - unfold sendMessage, bind, gets, try_catch, call_sendMessage, throw.
    rewrite Hget, Hsend. reflexivity.
  - repeat split.
Qed.

(** X7.  An adapter failure goes to the caller as it is, after the call
    was made; nothing is stored and nothing is emitted.  This holds for
    every platform. *)
Theorem sendMessage_propagates_adapter_failure (st : Bus) (platform : string)
    (channelId content : Value) (options : Options)
    (integration : Adapter) (error : Error) :
  map_get String.eqb platform (integrations st) = Some integration ->
  adapter_sendMessage integration (adapter_calls st) channelId content options
    = Throw error ->
  exists st',
    sendMessage uuidv4 clock platform channelId content options st
      = (Throw error, st') /\
    messages st' = messages st /\
    emitted st' = emitted st /\
    adapter_calls st' =
      adapter_calls st ++ [mkSendCall platform channelId content options].
Proof. apply sendMessage_adapter_failure. Qed.

(** X6.  On Telegram a successful send stores the bot's own message under a
    fresh id, emits [message_sent] with it and returns the adapter's
    result. *)
Lemma sendMessage_telegram_success (st : Bus) (channelId content : Value)
    (options : Options) (integration : Adapter) (result messageId : Value) :
  map_get String.eqb "telegram" (integrations st) = Some integration ->
  adapter_sendMessage integration (adapter_calls st) channelId content options
    = Return result ->
  get result "messageId" = Return messageId ->
  truthy messageId = true ->
  exists st' m,
    sendMessage uuidv4 clock "telegram" channelId content options st
      = (Return result, st') /\
    messages st' = map_set String.eqb (msg_id m) m (messages st) /\
    emitted st' = emitted st ++ [message_sent_event m] /\
    msg_id m = uuidv4 (uuid_calls st) /\
    msg_platform m = "telegram" /\
    get (msg_author m) "id" = Return (VStr "bot") /\
    msg_channelId m = channelId /\
    msg_content m = or content (VStr "[Media]") /\
    msg_messageId m = messageId.
Proof.
  intros Hget Hsend Hid Htruthy. eexists. eexists. split.
  - unfold sendMessage, bind, gets, try_catch, call_sendMessage, pure.
    rewrite Hget, Hsend, Hid, Htruthy. reflexivity.
  - repeat split.
Qed.

(** X5.  On Slack the send goes through, but the stored message has neither
    the bot as author nor the channel: the payload [sendMessage] builds has
    Telegram's field names, which the Slack branch of [normalizeMessage]
    does not read. *)
Lemma sendMessage_slack_author_undefined (st : Bus) (channelId content : Value)
    (options : Options) (integration : Adapter) (result messageId : Value) :
  map_get String.eqb "slack" (integrations st) = Some integration ->
  adapter_sendMessage integration (adapter_calls st) channelId content options
    = Return result ->
  get result "messageId" = Return messageId ->
  truthy messageId = true ->
  exists st' m,
    sendMessage uuidv4 clock "slack" channelId content options st
      = (Return result, st') /\
    messages st' = map_set String.eqb (msg_id m) m (messages st) /\
    get (msg_author m) "id" = Return VUndefined /\
    msg_channelId m = VUndefined.
Proof.
  intros Hget Hsend Hid Htruthy. eexists. eexists. split.
  - unfold sendMessage, bind, gets, try_catch, call_sendMessage, pure.
    rewrite Hget, Hsend, Hid, Htruthy. reflexivity.
  - repeat split.
Qed.

(** X4 (on the code of C3).  On Discord, after the adapter
    has sent the message, [sendMessage] throws a [TypeError] instead of
    returning the adapter's result: the Discord branch of
    [normalizeMessage] reads [rawMessage.author.id] and the payload has no
    [author].  No outbound message is stored and no [message_sent] event is
    emitted, although the adapter call was made. *)
Theorem sendMessage_discord_throws_after_send (st : Bus)
    (channelId content : Value) (options : Options)
    (integration : Adapter) (result messageId : Value) :
  map_get String.eqb "discord" (integrations st) = Some integration ->
  adapter_sendMessage integration (adapter_calls st) channelId content options
    = Return result ->
  get result "messageId" = Return messageId ->
  exists st',
    sendMessage uuidv4 clock "discord" channelId content options st
      = (Throw (TypeError "Cannot read properties of undefined (reading 'id')"), st') /\
    messages st' = messages st /\
    emitted st' = emitted st /\
    adapter_calls st' =
      adapter_calls st ++ [mkSendCall "discord" channelId content options].
Proof.
  intros Hget Hsend Hid.
  unfold sendMessage, bind, gets, try_catch, call_sendMessage, pure.
  rewrite Hget, Hsend, Hid.
  destruct (truthy messageId); eexists; (split; [reflexivity | repeat split]).
Qed.
End Sending.

Lemma sendMessage_discord_throws_after_send_witness :
  exists st',
    sendMessage sample_uuid sample_clock "discord" (VStr "c1") (VStr "hi") no_options
                (with_integrations [("discord", adapter_ok)])
      = (Throw (TypeError "Cannot read properties of undefined (reading 'id')"), st') /\
    messages st' = [] /\
    emitted st' = [] /\
    adapter_calls st' = [mkSendCall "discord" (VStr "c1") (VStr "hi") no_options].
Proof.
  apply (sendMessage_discord_throws_after_send sample_uuid sample_clock
           (with_integrations [("discord", adapter_ok)]) (VStr "c1") (VStr "hi")
           no_options adapter_ok (VObj [("messageId", VStr "m1")]) (VStr "m1"));
    reflexivity.
Defined.

(* ===================================================================== *)
(** * What a call leaves of the bus *)
(* ===================================================================== *)

Lemma returns_cbind {A B} (P : B -> Prop) (c : Completion A)
    (k : A -> Completion B) :
  (forall a, returns_with P (k a)) -> returns_with P (cbind c k).
Proof.
  intros Hk b. destruct c as [a|e]; simpl.
  - apply Hk.
  - discriminate.
Qed.

Lemma returns_Return {A} (P : A -> Prop) (a : A) :
  P a -> returns_with P (Return a).
Proof. intros Ha b Hb. injection Hb as <-. exact Ha. Qed.

Lemma returns_Throw {A} (P : A -> Prop) (e : Error) :
  returns_with P (Throw e).
Proof. intros b Hb. discriminate Hb. Qed.

Section Frames.
Variable uuidv4 : nat -> string.
Variable clock : nat -> Timestamp.

(** [normalizeMessage] touches the two oracle counters and nothing else,
    and the message it returns carries the identifier of its first
    [uuidv4()] call. *)
Lemma normalizeMessage_spec (platform : string) (rawMessage : Value)
    (st st' : Bus) (r : Completion Message) :
  normalizeMessage uuidv4 clock platform rawMessage st = (r, st') ->
  messages st' = messages st /\
  integrations st' = integrations st /\
  aiAgents st' = aiAgents st /\
  emitted st' = emitted st /\
  adapter_calls st' = adapter_calls st /\
  uuid_calls st < uuid_calls st' /\
  returns_with (fun m => msg_id m = uuidv4 (uuid_calls st)) r.
Proof.
  unfold normalizeMessage, bind, call_uuidv4, moment_now.
  destruct (platform =? "telegram"); [|destruct (platform =? "slack");
    [|destruct (platform =? "discord")]].
  1-3: unfold pure; intros H; injection H as <- <-; cbn;
       repeat (split; [reflexivity || lia|]);
       repeat (apply returns_cbind; intros); now apply returns_Return.
  unfold pure.
  destruct (get rawMessage "content"); [|intros H; injection H as <- <-; cbn;
    repeat (split; [reflexivity || lia|]); apply returns_Throw].
  destruct (get rawMessage "text"), (get rawMessage "author"),
    (get rawMessage "channelId"), (get rawMessage "channelName"),
    (get rawMessage "id") as [id'|];
    try (intros H; injection H as <- <-; cbn;
         repeat (split; [reflexivity || lia|]); apply returns_Throw).
  destruct (truthy id'); unfold ret, call_uuidv4; intros H; injection H as <- <-; cbn;
    repeat (split; [reflexivity || lia|]); now apply returns_Return.
Qed.
End Frames.

(* ===================================================================== *)
(** * Identifiers of stored messages *)
(* ===================================================================== *)

Section Identifiers.
Variable uuidv4 : nat -> string.
Variable clock : nat -> Timestamp.




Section Keeps.
Context {S : Type}.
Variable proj : S -> Bus.










End Keeps.








(** From here on [uuidv4()] never returns the same identifier twice. *)
Hypothesis uuidv4_fresh : forall i j, uuidv4 i = uuidv4 j -> i = j.












End Identifiers.



(* ===================================================================== *)
(** * Broadcast *)
(* ===================================================================== *)

Section Broadcast.
Variable uuidv4 : nat -> string.
Variable clock : nat -> Timestamp.

(** The channel loop of one platform: it ends normally after delivering to
    every channel, or it throws at the first [sendMessage] that throws,
    with the deliveries made until then already pushed. *)
Lemma channel_loop_run (platform : string) (content : Value) (options : Options)
    (channels : list Value) : forall st results,
  exists r st' entries,
    for_of channels (fun channelId =>
      bind (on_bus (sendMessage uuidv4 clock platform channelId content options))
           (fun result => push (delivered platform channelId result)))
      (st, results) = (r, (st', results ++ entries)) /\
    match r with
    | Return _ =>
        platform_run uuidv4 clock platform content options channels st entries st'
    | Throw e =>
        platform_run uuidv4 clock platform content options channels st
                     (entries ++ [failed platform (message e)]) st'
    end.
Proof.
  induction channels as [|channelId rest IH]; intros st results.
  - exists (Return tt), st, []. split.
    + simpl. unfold ret. now rewrite app_nil_r.
    + constructor.
  - cbn [for_of]. unfold bind at 1. unfold bind at 1. unfold on_bus at 1. cbn [fst snd].
    destruct (sendMessage uuidv4 clock platform channelId content options st)
      as [[result|e] st1] eqn:E.
    + unfold push at 1, modify at 1. cbn [fst snd].
      destruct (IH st1 (results ++ [delivered platform channelId result]))
        as (r & st' & entries & Hloop & Hrun).
      exists r, st', (delivered platform channelId result :: entries). split.
      * rewrite Hloop. now rewrite <- app_assoc.
      * destruct r as [[]|e'].
        -- eapply platform_delivered; eassumption.
        -- simpl. eapply platform_delivered; eassumption.
    + exists (Throw e), st1, []. split.
      * now rewrite app_nil_r.
      * simpl. now apply platform_failed.
Qed.

Lemma send_to_platform_run (content : Value) (options : Options)
    (platform : string) (integration : Adapter) (st : Bus) (results : list Delivery) :
  exists st' entries,
    send_to_platform uuidv4 clock content options (platform, integration) (st, results)
      = (Return tt, (st', results ++ entries)) /\
    platform_run uuidv4 clock platform content options
                 (resolve_channels options st platform) st entries st'.
Proof.
  unfold send_to_platform, try_catch. unfold bind at 1, on_bus at 1, gets at 1.
  cbn [fst snd].
  destruct (channel_loop_run platform content options
              (resolve_channels options st platform) st results)
    as (r & st' & entries & Hloop & Hrun).
  unfold resolve_channels in Hloop. rewrite Hloop.
  destruct r as [[]|e].
  - exists st', entries. split; [reflexivity | exact Hrun].
  - exists st', (entries ++ [failed platform (message e)]). split.
    + unfold push, modify. cbn [fst snd]. now rewrite app_assoc.
    + exact Hrun.
Qed.

Lemma platform_loop_run (content : Value) (options : Options)
    (registered : list (string * Adapter)) : forall st results,
  exists st' entries,
    for_of registered (send_to_platform uuidv4 clock content options) (st, results)
      = (Return tt, (st', results ++ entries)) /\
    cross_run uuidv4 clock content options registered st entries st'.
Proof.
  induction registered as [|[platform integration] rest IH]; intros st results.
  - exists st, []. split; [simpl; unfold ret; now rewrite app_nil_r | constructor].
  - destruct (send_to_platform_run content options platform integration st results)
      as (st1 & entries & Hsend & Hrun).
    destruct (IH st1 (results ++ entries)) as (st2 & entries' & Hloop & Hcross).
    exists st2, (entries ++ entries'). split.
    + cbn [for_of]. unfold bind at 1. rewrite Hsend, Hloop. now rewrite app_assoc.
    + econstructor; eassumption.
Qed.

Lemma sendCrossChannelMessage_run (st : Bus) (content : Value) (options : Options) :
  exists results st',
    sendCrossChannelMessage uuidv4 clock content options st = (Return results, st') /\
    cross_run uuidv4 clock content options (integrations st) st results st'.
Proof.
  destruct (platform_loop_run content options (integrations st) st [])
    as (st' & entries & Hloop & Hcross).
  exists entries, st'. split; [|exact Hcross].
  unfold sendCrossChannelMessage. now rewrite Hloop.
Qed.

(** X1.  [sendCrossChannelMessage] never throws.  It returns the entries of a
    run over the registered platforms in registration order: on each
    platform the resolved channels are tried in order, each [sendMessage]
    that returns gives a [{platform, channelId, result}] entry, the first
    one that throws gives one [{platform, error}] entry and ends that
    platform, and the next platform is run either way. *)
Theorem sendCrossChannelMessage_runs_every_platform (st : Bus) (content : Value)
    (options : Options) :
  exists results st',
    sendCrossChannelMessage uuidv4 clock content options st = (Return results, st') /\
    cross_run uuidv4 clock content options (integrations st) st results st'.
Proof. apply sendCrossChannelMessage_run. Qed.
End Broadcast.

(* ===================================================================== *)
(** * What the methods of the bus leave alone *)
(* ===================================================================== *)

Section Stable.
Variable R : Bus -> Bus -> Prop.
Hypothesis R_refl : forall st, R st st.
Hypothesis R_trans : forall a b c, R a b -> R b c -> R a c.

Section Combinators.
Context {S : Type}.
Variable proj : S -> Bus.

Lemma stable_same {A} (c : M S A) :
  (forall s r s', c s = (r, s') -> proj s' = proj s) -> stable R proj c.
Proof. intros H s r s' Hc. rewrite (H _ _ _ Hc). apply R_refl. Qed.

Lemma stable_ret {A} (a : A) : stable R proj (ret a).
Proof. apply stable_same. intros s r s' H. now injection H as <- <-. Qed.

Lemma stable_throw {A} (e : Error) : stable R proj (@throw S A e).
Proof. apply stable_same. intros s r s' H. now injection H as <- <-. Qed.

Lemma stable_pure {A} (c : Completion A) : stable R proj (pure c).
Proof. apply stable_same. intros s r s' H. now injection H as <- <-. Qed.

Lemma stable_gets {A} (f : S -> A) : stable R proj (gets f).
Proof. apply stable_same. intros s r s' H. now injection H as <- <-. Qed.


Lemma stable_modify (f : S -> S) :
  (forall s, R (proj s) (proj (f s))) -> stable R proj (modify f).
Proof. intros Hf s r s' H. injection H as <- <-. apply Hf. Qed.

Lemma stable_bind {A B} (c : M S A) (k : A -> M S B) :
  stable R proj c -> (forall a, stable R proj (k a)) -> stable R proj (bind c k).
Proof.
  intros Hc Hk s r s' H. unfold bind in H.
  destruct (c s) as [[a|e] s1] eqn:E.
  - eapply R_trans; [exact (Hc _ _ _ E) | exact (Hk a _ _ _ H)].
  - injection H as <- <-. exact (Hc _ _ _ E).
Qed.

Lemma stable_try_catch {A} (body : M S A) (handler : Error -> M S A) :
  stable R proj body -> (forall e, stable R proj (handler e)) ->
  stable R proj (try_catch body handler).
Proof.
  intros Hb Hh s r s' H. unfold try_catch in H.
  destruct (body s) as [[a|e] s1] eqn:E.
  - injection H as <- <-. exact (Hb _ _ _ E).
  - eapply R_trans; [exact (Hb _ _ _ E) | exact (Hh e _ _ _ H)].
Qed.

End Combinators.

Variable uuidv4 : nat -> string.
Variable clock : nat -> Timestamp.

(** What [R] has to allow: the oracle counters move, an event is emitted,
    an adapter call is logged, a message is put in the store. *)
Hypothesis R_tick_uuid : forall st, R st (tick_uuid st).
Hypothesis R_tick_clock : forall st, R st (tick_clock st).
Hypothesis R_log_event : forall e st, R st (log_event e st).
Hypothesis R_log_call : forall c st, R st (log_call c st).
Hypothesis R_store : forall platform rawMessage st m st1,
  normalizeMessage uuidv4 clock platform rawMessage st = (Return m, st1) ->
  R st1 (set_messages (map_set String.eqb (msg_id m) m) st1).

Lemma stable_call_uuidv4 : stable R on_the_bus (call_uuidv4 uuidv4).
Proof. intros s r s' H. injection H as <- <-. apply R_tick_uuid. Qed.

Lemma stable_moment_now : stable R on_the_bus (moment_now clock).
Proof. intros s r s' H. injection H as <- <-. apply R_tick_clock. Qed.

Lemma stable_normalizeMessage (platform : string) (rawMessage : Value) :
  stable R on_the_bus (normalizeMessage uuidv4 clock platform rawMessage).
Proof.
  unfold normalizeMessage.
  apply stable_bind; [apply stable_call_uuidv4|]. intros id.
  apply stable_bind; [apply stable_moment_now|]. intros timestamp.
  destruct (platform =? "telegram"); [apply stable_pure|].
  destruct (platform =? "slack"); [apply stable_pure|].
  destruct (platform =? "discord"); [apply stable_pure|].
  repeat (apply stable_bind; [apply stable_pure|]; intros ?).
  apply stable_bind; [|intros; apply stable_ret].
  match goal with |- context [truthy ?v] => destruct (truthy v) end;
    [apply stable_ret|].
  apply stable_bind; [apply stable_call_uuidv4 | intros; apply stable_ret].
Qed.

Lemma stable_store {A} (platform : string) (rawMessage : Value)
    (k : Message -> M Bus A) :
  (forall m, stable R on_the_bus (k m)) ->
  stable R on_the_bus
    (bind (normalizeMessage uuidv4 clock platform rawMessage) (fun message =>
     bind (modify (set_messages (map_set String.eqb (msg_id message) message)))
          (fun _ => k message))).
Proof.
  intros Hk s r s' H. unfold on_the_bus in *. unfold bind at 1 in H.
  destruct (normalizeMessage uuidv4 clock platform rawMessage s) as [[m|e] s1] eqn:E.
  - unfold bind at 1, modify in H.
    eapply R_trans; [exact (stable_normalizeMessage _ _ _ _ _ E)|].
    eapply R_trans; [exact (R_store _ _ _ _ _ E) | exact (Hk m _ _ _ H)].
  - injection H as <- <-. exact (stable_normalizeMessage _ _ _ _ _ E).
Qed.

Lemma stable_emit (e : Event) : stable R on_the_bus (emit e).
Proof. apply stable_modify. intros s. apply R_log_event. Qed.

Lemma stable_call_sendMessage (integration : Adapter) (platform : string)
    (channelId content : Value) (options : Options) :
  stable R on_the_bus
         (call_sendMessage integration platform channelId content options).
Proof. intros s r s' H. injection H as <- <-. apply R_log_call. Qed.

(** What follows the adapter call in [sendMessage]. *)
Lemma stable_after_send (platform : string) (channelId content result : Value) :
  stable R on_the_bus
    (bind (pure (get result "messageId")) (fun messageId =>
     bind (if truthy messageId then ret messageId
           else bind (call_uuidv4 uuidv4) (fun fresh => ret (VStr fresh)))
          (fun message_id =>
     bind (normalizeMessage uuidv4 clock platform (VObj [
             ("text", content);
             ("from", VObj [("id", VStr "bot"); ("username", VStr "UnifiMessenger")]);
             ("chat", VObj [("id", channelId)]);
             ("message_id", message_id)])) (fun message =>
     bind (modify (set_messages (map_set String.eqb (msg_id message) message)))
          (fun _ =>
     bind (emit (message_sent_event message)) (fun _ => ret result)))))).
Proof.
  apply stable_bind; [apply stable_pure|]. intros messageId.
  apply stable_bind.
  - destruct (truthy messageId); [apply stable_ret|].
    apply stable_bind; [apply stable_call_uuidv4 | intros; apply stable_ret].
  - intros message_id. apply stable_store. intros m.
    apply stable_bind; [apply stable_emit | intros; apply stable_ret].
Qed.

Lemma stable_sendMessage (platform : string) (channelId content : Value)
    (options : Options) :
  stable R on_the_bus (sendMessage uuidv4 clock platform channelId content options).
Proof.
  unfold sendMessage.
  apply stable_bind; [apply stable_gets|]. intros [integration|]; [|apply stable_throw].
  apply stable_try_catch; [|intros e; apply stable_throw].
  apply stable_bind; [apply stable_call_sendMessage|]. intros result.
  apply stable_after_send.
Qed.

Lemma stable_processWithAI (message : Message) :
  stable R on_the_bus (processWithAI uuidv4 clock message).
Proof.
  unfold processWithAI.
  apply stable_try_catch; [|intros e; apply stable_ret].
  apply stable_bind; [apply stable_gets|]. intros [aiAgent|]; [|apply stable_ret].
  apply stable_bind; [apply stable_pure|]. intros response.
  destruct (truthy response); [|apply stable_ret].
  apply stable_bind; [apply stable_sendMessage | intros; apply stable_ret].
Qed.




End Stable.

(* ===================================================================== *)
(** * Registries and adapter calls *)
(* ===================================================================== *)

Section Registry.
Variable uuidv4 : nat -> string.
Variable clock : nat -> Timestamp.

Lemma registry_kept_refl (st : Bus) : registry_kept st st.
Proof. repeat split. exists []. now rewrite app_nil_r. Qed.

Lemma registry_kept_trans (a b c : Bus) :
  registry_kept a b -> registry_kept b c -> registry_kept a c.
Proof.
  intros (Hi1 & Ha1 & m1 & Hc1) (Hi2 & Ha2 & m2 & Hc2).
  split; [congruence|]. split; [congruence|].
  exists (m1 ++ m2). now rewrite Hc2, Hc1, app_assoc.
Qed.

Lemma registry_kept_tick_uuid (st : Bus) : registry_kept st (tick_uuid st).
Proof. repeat split. exists []. cbn. now rewrite app_nil_r. Qed.

Lemma registry_kept_tick_clock (st : Bus) : registry_kept st (tick_clock st).
Proof. repeat split. exists []. cbn. now rewrite app_nil_r. Qed.

Lemma registry_kept_log_event (e : Event) (st : Bus) :
  registry_kept st (log_event e st).
Proof. repeat split. exists []. cbn. now rewrite app_nil_r. Qed.

Lemma registry_kept_log_call (c : SendCall) (st : Bus) :
  registry_kept st (log_call c st).
Proof. repeat split. now exists [c]. Qed.

Lemma registry_kept_store (platform : string) (rawMessage : Value)
    (st : Bus) (m : Message) (st1 : Bus) :
  normalizeMessage uuidv4 clock platform rawMessage st = (Return m, st1) ->
  registry_kept st1 (set_messages (map_set String.eqb (msg_id m) m) st1).
Proof. intros _. repeat split. exists []. cbn. now rewrite app_nil_r. Qed.

Lemma sendMessage_registry_kept (platform : string) (channelId content : Value)
    (options : Options) :
  stable registry_kept on_the_bus
         (sendMessage uuidv4 clock platform channelId content options).
Proof.
  apply stable_sendMessage.
  - exact registry_kept_refl.
  - exact registry_kept_trans.
  - exact registry_kept_tick_uuid.
  - exact registry_kept_tick_clock.
  - exact registry_kept_log_event.
  - exact registry_kept_log_call.
  - exact registry_kept_store.
Qed.

Lemma attempted_kept (st st' : Bus) (platform : string) (channelId : Value) :
  registry_kept st st' -> attempted st platform channelId ->
  attempted st' platform channelId.
Proof.
  intros (_ & _ & more & Hc) (call & Hin & Hp & Hch).
  exists call. split; [|auto]. rewrite Hc. apply in_app_iff. now left.
Qed.

(** A [sendMessage] to a registered platform reaches its adapter, whether
    the call returns or throws afterwards. *)
Lemma sendMessage_attempts (st st' : Bus) (platform : string)
    (channelId content : Value) (options : Options) (integration : Adapter)
    (r : Completion Value) :
  map_get String.eqb platform (integrations st) = Some integration ->
  sendMessage uuidv4 clock platform channelId content options st = (r, st') ->
  attempted st' platform channelId.
Proof.
  intros Hget H. unfold sendMessage in H. unfold bind at 1, gets at 1 in H.
  rewrite Hget in H. unfold try_catch in H. unfold bind at 1 in H.
  unfold call_sendMessage at 1 in H.
  set (logged := log_call (mkSendCall platform channelId content options) st) in H.
  assert (Hlogged : attempted logged platform channelId).
  { exists (mkSendCall platform channelId content options). split; [|auto].
    subst logged. cbn. apply in_app_iff. right. now left. }
  destruct (adapter_sendMessage integration (adapter_calls st) channelId content options)
    as [result|e].
  - match type of H with
    | match ?k logged with _ => _ end = _ =>
        destruct (k logged) as [r2 st2] eqn:E;
        assert (Hkept : registry_kept logged st2)
    end.
    { eapply (stable_after_send registry_kept registry_kept_refl registry_kept_trans
                uuidv4 clock); try exact E.
      - exact registry_kept_tick_uuid.
      - exact registry_kept_tick_clock.
      - exact registry_kept_log_event.
      - exact registry_kept_store. }
    destruct r2; injection H as <- <-; eapply attempted_kept; eassumption.
  - injection H as <- <-. exact Hlogged.
Qed.

Lemma platform_run_registry_kept (platform : string) (content : Value)
    (options : Options) (channels : list Value) (st : Bus)
    (entries : list Delivery) (st' : Bus) :
  platform_run uuidv4 clock platform content options channels st entries st' ->
  registry_kept st st'.
Proof.
  induction 1 as [st | c rest st result st1 entries st2 Hsend _ IH
                     | c rest st e st1 Hsend].
  - apply registry_kept_refl.
  - eapply registry_kept_trans; [exact (sendMessage_registry_kept _ _ _ _ _ _ _ Hsend) | exact IH].
  - exact (sendMessage_registry_kept _ _ _ _ _ _ _ Hsend).
Qed.

Lemma platform_run_attempts (platform : string) (content : Value)
    (options : Options) (channelId : Value) (rest : list Value) (st : Bus)
    (entries : list Delivery) (st' : Bus) (integration : Adapter) :
  map_get String.eqb platform (integrations st) = Some integration ->
  platform_run uuidv4 clock platform content options (channelId :: rest) st entries st' ->
  attempted st' platform channelId.
Proof.
  intros Hget Hrun. inversion Hrun; subst.
  - eapply attempted_kept.
    + eapply platform_run_registry_kept. eassumption.
    + eapply sendMessage_attempts; eassumption.
  - eapply sendMessage_attempts; eassumption.
Qed.

Lemma cross_run_attempts (content channelId : Value) (rest : list Value)
    (registered : list (string * Adapter)) (st : Bus)
    (entries : list Delivery) (st' : Bus) :
  cross_run uuidv4 clock content (mkOptions (Some (channelId :: rest)))
            registered st entries st' ->
  (forall p, In p (map_keys registered) -> In p (map_keys (integrations st))) ->
  registry_kept st st' /\
  forall p, In p (map_keys registered) -> attempted st' p channelId.
Proof.
  induction 1 as [st | platform integration others st entries st1 entries' st2
                       Hrun Hcross IH]; intros Hreg.
  - split; [apply registry_kept_refl | intros p []].
  - pose proof (platform_run_registry_kept _ _ _ _ _ _ _ Hrun) as Hk1.
    destruct IH as [Hk2 Hatt].
    { intros p Hp. destruct Hk1 as (Hi & _). rewrite Hi. apply Hreg. now right. }
    split; [eapply registry_kept_trans; eassumption|].
    intros p [<-|Hp].
    + destruct (map_get_In_keys String.eqb platform (integrations st) String.eqb_refl)
        as [a Ha]; [apply Hreg; now left|].
      eapply attempted_kept; [exact Hk2|].
      eapply platform_run_attempts; [exact Ha | exact Hrun].
    + now apply Hatt.
Qed.




(** X2.  When a broadcast is given its channels, the adapter of every
    registered platform is asked to send to the first of them, whatever
    happened on the platforms before it. *)
Theorem broadcast_reaches_every_platform (st : Bus) (content channelId : Value)
    (rest : list Value) (platform : string) :
  In platform (map_keys (integrations st)) ->
  attempted
    (snd (sendCrossChannelMessage uuidv4 clock content
            (mkOptions (Some (channelId :: rest))) st))
    platform channelId.
Proof.
  intros Hin.
  destruct (sendCrossChannelMessage_run uuidv4 clock st content
              (mkOptions (Some (channelId :: rest)))) as (results & st' & Hsend & Hrun).
  rewrite Hsend. simpl.
  destruct (cross_run_attempts _ _ _ _ _ _ _ Hrun (fun p Hp => Hp)) as [_ Hatt].
  now apply Hatt.
Qed.
End Registry.

Lemma broadcast_reaches_every_platform_witness :
  attempted
    (snd (sendCrossChannelMessage sample_uuid sample_clock (VStr "hi")
            (mkOptions (Some [VStr "c1"; VStr "c2"])) two_platforms))
    "slack" (VStr "c1").
Proof.
  apply (broadcast_reaches_every_platform sample_uuid sample_clock two_platforms
           (VStr "hi") (VStr "c1") [VStr "c2"] "slack").
  simpl. right. left. reflexivity.
Defined.


Lemma sendMessage_propagates_adapter_failure_witness :
  exists st',
    sendMessage sample_uuid sample_clock "telegram" (VStr "c1") (VStr "hi") no_options
                two_platforms
      = (Throw (new_Error "channel not found"), st') /\
    messages st' = messages two_platforms /\
    emitted st' = emitted two_platforms /\
    adapter_calls st' =
      adapter_calls two_platforms ++
      [mkSendCall "telegram" (VStr "c1") (VStr "hi") no_options].
Proof.
  apply (sendMessage_propagates_adapter_failure sample_uuid sample_clock two_platforms
           "telegram" (VStr "c1") (VStr "hi") no_options adapter_fails_on_c1
           (new_Error "channel not found")); reflexivity.
Defined.

Lemma sendMessage_telegram_success_witness :
  exists st' m,
    sendMessage sample_uuid sample_clock "telegram" (VNum 42) (VStr "hi") no_options
                two_platforms
      = (Return (VObj [("messageId", VStr "m1")]), st') /\
    messages st' = map_set String.eqb (msg_id m) m (messages two_platforms) /\
    emitted st' = emitted two_platforms ++ [message_sent_event m] /\
    msg_id m = sample_uuid (uuid_calls two_platforms) /\
    msg_platform m = "telegram" /\
    get (msg_author m) "id" = Return (VStr "bot") /\
    msg_channelId m = VNum 42 /\
    msg_content m = or (VStr "hi") (VStr "[Media]") /\
    msg_messageId m = VStr "m1".
Proof.
  apply (sendMessage_telegram_success sample_uuid sample_clock two_platforms
           (VNum 42) (VStr "hi") no_options adapter_fails_on_c1
           (VObj [("messageId", VStr "m1")]) (VStr "m1")); reflexivity.
Defined.

Lemma sendMessage_slack_author_undefined_witness :
  exists st' m,
    sendMessage sample_uuid sample_clock "slack" (VStr "C1") (VStr "hi") no_options
                two_platforms
      = (Return (VObj [("messageId", VStr "m1")]), st') /\
    messages st' = map_set String.eqb (msg_id m) m (messages two_platforms) /\
    get (msg_author m) "id" = Return VUndefined /\
    msg_channelId m = VUndefined.
Proof.
  apply (sendMessage_slack_author_undefined sample_uuid sample_clock two_platforms
           (VStr "C1") (VStr "hi") no_options adapter_ok
           (VObj [("messageId", VStr "m1")]) (VStr "m1")); reflexivity.
Defined.

(* ===================================================================== *)
(** * What every stored message has *)
(* ===================================================================== *)





Section WellFormed.
Variable uuidv4 : nat -> string.
Variable clock : nat -> Timestamp.











End WellFormed.


(* ===================================================================== *)
(** * The limit of [getMessages] *)
(* ===================================================================== *)

Lemma slice_last {A} (n : Z) (l : list A) :
  (0 < n)%Z -> slice (- n) l = skipn (List.length l - Z.to_nat n) l.
Proof.
  intros Hn. unfold slice.
  destruct (Z.ltb_spec (- n) 0); [|lia].
  f_equal. lia.
Qed.

Lemma slice_drop {A} (n : Z) (l : list A) :
  (n < 0)%Z -> slice (- n) l = skipn (Z.to_nat (- n)) l.
Proof.
  intros Hn. unfold slice.
  destruct (Z.ltb_spec (- n) 0); [lia|].
  destruct (Z.le_gt_cases (- n) (Z.of_nat (List.length l))).
  - f_equal. lia.
  - rewrite !skipn_all2; [reflexivity | lia | lia].
Qed.

(** X12.  With a positive limit [n] and whatever other filters, [getMessages]
    returns at most [n] messages. *)
Theorem getMessages_at_most_limit (st : Bus) (filters : Filters) (n : Z)
    (result : list Message) :
  filter_limit filters = Some n -> (0 < n)%Z ->
  getMessages st filters = Return result ->
  List.length result <= Z.to_nat n.
Proof.
  intros Hl Hn. unfold getMessages. rewrite Hl.
  destruct (if truthy (filter_author filters) then _ else _) as [messages3|e];
    [|discriminate].
  cbn [cbind]. destruct (Z.eqb_spec n 0); [lia|].
  intros H. injection H as <-.
  rewrite (Permutation_length (array_sort_perm _ _)).
  rewrite slice_last by exact Hn. rewrite length_skipn. lia.
Qed.

(** X13.  The limit cuts before the sort.  [getMessages({limit: n})] with
    [n > 0] returns the [n] messages stored last (all of them when there
    are fewer), sorted by timestamp: not the [n] with the latest
    timestamps.  With [n < 0] it returns all but the [-n] stored first. *)
Theorem getMessages_limit_by_insertion (st : Bus) (n : Z) :
  n <> 0%Z ->
  exists result,
    getMessages st (limit_filter n) = Return result /\
    StronglySorted ascending result /\
    ((0 < n)%Z ->
     Permutation result
       (skipn (List.length (messages st) - Z.to_nat n) (map_values (messages st))) /\
     List.length result = Nat.min (Z.to_nat n) (List.length (messages st))) /\
    ((n < 0)%Z ->
     Permutation result (skipn (Z.to_nat (- n)) (map_values (messages st)))).
Proof.
  intros Hn. unfold getMessages, limit_filter. cbn -[array_sort slice Z.eqb].
  destruct (Z.eqb_spec n 0); [contradiction|].
  eexists. split; [reflexivity|]. split; [apply sort_by_timestamp_sorted|].
  assert (Hlen : List.length (map_values (messages st)) = List.length (messages st)).
  { unfold map_values. apply length_map. }
  split; intros Hsign.
  - rewrite slice_last by exact Hsign. rewrite Hlen. split.
    + apply array_sort_perm.
    + rewrite (Permutation_length (array_sort_perm _ _)).
      rewrite length_skipn, Hlen. lia.
  - rewrite slice_drop by exact Hsign. apply array_sort_perm.
Qed.

Lemma getMessages_at_most_limit_witness :
  List.length
    [sample_message "telegram" (VStr "b") (VNum 42) 1000%Z "xx";
     sample_message "telegram" (VStr "c") (VNum 42) 2000%Z "xxx"] <= Z.to_nat 2.
Proof.
  apply (getMessages_at_most_limit
    (with_messages [sample_message "telegram" (VStr "a") (VNum 42) 3000%Z "x";
                    sample_message "telegram" (VStr "b") (VNum 42) 1000%Z "xx";
                    sample_message "telegram" (VStr "c") (VNum 42) 2000%Z "xxx"])
    (limit_filter 2) 2).
  - reflexivity.
  - reflexivity.
  - reflexivity.
Defined.

Lemma getMessages_limit_by_insertion_witness :
  exists result,
    getMessages
      (with_messages [sample_message "telegram" (VStr "a") (VNum 42) 3000%Z "x";
                      sample_message "telegram" (VStr "b") (VNum 42) 1000%Z "xx";
                      sample_message "telegram" (VStr "c") (VNum 42) 2000%Z "xxx"])
      (limit_filter 2) = Return result /\
    result = [sample_message "telegram" (VStr "b") (VNum 42) 1000%Z "xx";
              sample_message "telegram" (VStr "c") (VNum 42) 2000%Z "xxx"].
Proof.
  destruct (getMessages_limit_by_insertion
    (with_messages [sample_message "telegram" (VStr "a") (VNum 42) 3000%Z "x";
                    sample_message "telegram" (VStr "b") (VNum 42) 1000%Z "xx";
                    sample_message "telegram" (VStr "c") (VNum 42) 2000%Z "xxx"])
    2) as (result & Hr & _).
  - discriminate.
  - exists result. split; [exact Hr|].
    vm_compute in Hr. now injection Hr.
Defined.

(* ===================================================================== *)
(** * The channels a platform was seen on *)
(* ===================================================================== *)

Section ActiveChannels.
Variable platform : string.

Lemma later_distinct_snoc (l : list Value) (c : Value) :
  ForallOrdPairs (fun a b => strict_eq b a = false) l ->
  existsb (strict_eq c) l = false ->
  ForallOrdPairs (fun a b => strict_eq b a = false) (l ++ [c]).
Proof.
  induction 1 as [|a l Hall Hrest IH]; simpl; intros Hc.
  - repeat constructor.
  - apply orb_false_elim in Hc. destruct Hc as [Hca Hcl].
    constructor; [|now apply IH].
    apply Forall_app. split; [exact Hall | now constructor].
Qed.

Lemma active_channels_fold (l : list Message) : forall (seen : list Message)
    (channels : list Value),
  (forall c, In c channels ->
     exists m, In m seen /\ msg_platform m = platform /\ msg_channelId m = c) ->
  (forall m, In m seen -> msg_platform m = platform ->
     is_primitive (msg_channelId m) = true -> In (msg_channelId m) channels) ->
  ForallOrdPairs (fun a b => strict_eq b a = false) channels ->
  let result :=
    fold_left
      (fun channels message =>
         if (msg_platform message =? platform) &&
            negb (existsb (strict_eq (msg_channelId message)) channels)
         then channels ++ [msg_channelId message]
         else channels) l channels in
  (forall c, In c result ->
     exists m, In m (seen ++ l) /\ msg_platform m = platform /\ msg_channelId m = c) /\
  (forall m, In m (seen ++ l) -> msg_platform m = platform ->
     is_primitive (msg_channelId m) = true -> In (msg_channelId m) result) /\
  ForallOrdPairs (fun a b => strict_eq b a = false) result.
Proof.
  induction l as [|x l IH]; intros seen channels Hfrom Hall Hdist; simpl.
  - rewrite app_nil_r. auto.
  - replace (seen ++ x :: l) with ((seen ++ [x]) ++ l)
      by (rewrite <- app_assoc; reflexivity).
    apply IH.
    + intros c Hc.
      destruct ((msg_platform x =? platform) &&
                negb (existsb (strict_eq (msg_channelId x)) channels)) eqn:E.
      * apply in_app_iff in Hc. destruct Hc as [Hc | [<-|[]]].
        -- destruct (Hfrom c Hc) as (m & Hm & Hp & Hid).
           exists m. split; [apply in_app_iff; now left | auto].
        -- apply andb_prop in E. destruct E as [Ep _]. apply String.eqb_eq in Ep.
           exists x. split; [apply in_app_iff; right; now left | auto].
      * destruct (Hfrom c Hc) as (m & Hm & Hp & Hid).
        exists m. split; [apply in_app_iff; now left | auto].
    + intros m Hm Hp Hprim. apply in_app_iff in Hm.
      destruct Hm as [Hm | [<-|[]]].
      * specialize (Hall m Hm Hp Hprim).
        destruct ((msg_platform x =? platform) && _); [apply in_app_iff; now left | exact Hall].
      * rewrite Hp, String.eqb_refl. simpl.
        destruct (existsb (strict_eq (msg_channelId x)) channels) eqn:E; simpl.
        -- apply existsb_exists in E. destruct E as [c [Hc Heq]].
           apply strict_eq_eq in Heq. now subst.
        -- apply in_app_iff. right. now left.
    + destruct ((msg_platform x =? platform) &&
                negb (existsb (strict_eq (msg_channelId x)) channels)) eqn:E;
        [|exact Hdist].
      apply andb_prop in E. destruct E as [_ E]. apply negb_true_iff in E.
      now apply later_distinct_snoc.
Qed.

(** X14.  [getActiveChannels(platform)] returns channel ids of stored messages
    of that platform only, it returns the channel id of every such
    message (when the id is a string or a number), and no later entry of
    the list equals an earlier one: a broadcast without [options.channels]
    reaches each channel once. *)
Theorem getActiveChannels_spec (st : Bus) :
  let channels := getActiveChannels st platform in
  (forall c, In c channels ->
     exists m, In m (map_values (messages st)) /\
               msg_platform m = platform /\ msg_channelId m = c) /\
  (forall m, In m (map_values (messages st)) -> msg_platform m = platform ->
     is_primitive (msg_channelId m) = true -> In (msg_channelId m) channels) /\
  ForallOrdPairs (fun a b => strict_eq b a = false) channels.
Proof.
  unfold getActiveChannels.
  apply (active_channels_fold (map_values (messages st)) [] []).
  - intros c [].
  - intros m [].
  - constructor.
Qed.
End ActiveChannels.

(* ===================================================================== *)
(** * Reconnection with any adapter *)
(* ===================================================================== *)

Section ReconnectAny.
Import BaseIntegration.

Lemma count_attempts_app (a b : list Effect) :
  count_attempts (a ++ b) = count_attempts a + count_attempts b.
Proof. unfold count_attempts. now rewrite filter_app, length_app. Qed.

Lemma count_errors_app (a b : list Effect) :
  count_errors (a ++ b) = count_errors a + count_errors b.
Proof. unfold count_errors. now rewrite filter_app, length_app. Qed.

Lemma handleReconnect_any (connect : nat -> Completion unit) (n : nat) :
  forall this,
    maxReconnectAttempts this - reconnectAttempts this = n ->
    exists trace,
      effects (handleReconnect connect this) = effects this ++ trace /\
      count_attempts trace <= n /\
      count_errors trace <= 1 /\
      count_attempts trace + connect_calls this =
        connect_calls (handleReconnect connect this) /\
      maxReconnectAttempts (handleReconnect connect this) = maxReconnectAttempts this.
Proof.
  induction n as [|n IH]; intros this Hn; simp handleReconnect;
    destruct (le_lt_dec (maxReconnectAttempts this) (reconnectAttempts this)) as [Hle|Hlt];
    cbn [handleReconnect_unfold_clause_1]; try lia.
  - eexists. split; [reflexivity|]. cbn. repeat split; lia.
  - destruct (connect (connect_calls this)) as [[]|e].
    + exists [timeout_set (reconnectDelay this * S (reconnectAttempts this)); connect_called].
      cbn. rewrite <- app_assoc. repeat split; lia.
    + destruct (IH (attempt this)) as (trace & He & Ha & Herr & Hc & Hm); [cbn; lia|].
      set (t := timeout_set (reconnectDelay this * S (reconnectAttempts this))).
      exists (t :: connect_called :: trace).
      assert (Hca : count_attempts (t :: connect_called :: trace)
                    = S (count_attempts trace)) by reflexivity.
      assert (Hce : count_errors (t :: connect_called :: trace)
                    = count_errors trace) by reflexivity.
      assert (Hcc : connect_calls (attempt this) = S (connect_calls this))
        by reflexivity.
      assert (Hmm : maxReconnectAttempts (attempt this) = maxReconnectAttempts this)
        by reflexivity.
      rewrite He, Hm, Hca, Hce, <- Hc, Hcc, Hmm.
      split; [cbn; rewrite <- !app_assoc; reflexivity|].
      repeat split; lia.
Qed.

(** X15.  Whatever [connect()] does, one run of [handleReconnect] calls it at
    most [maxReconnectAttempts - reconnectAttempts] times and emits at
    most one error. *)
Theorem reconnect_bounded_for_any_adapter (connect : nat -> Completion unit)
    (this : Integration) :
  exists trace,
    effects (handleReconnect connect this) = effects this ++ trace /\
    count_attempts trace <= maxReconnectAttempts this - reconnectAttempts this /\
    count_errors trace <= 1 /\
    connect_calls (handleReconnect connect this) <=
      connect_calls this + (maxReconnectAttempts this - reconnectAttempts this).
Proof.
  destruct (handleReconnect_any connect _ this eq_refl)
    as (trace & He & Ha & Herr & Hc & _).
  exists trace. repeat split; try assumption. lia.
Qed.

(** X16.  When [connect()] fails [k] times and then succeeds, within the
    budget, the run makes [k + 1] attempts with delays [reconnectDelay *
    attempt number], emits no error and leaves [reconnectAttempts] at 0:
    the next disconnection has the full budget again. *)
Theorem reconnect_success_resets_counter (connect : nat -> Completion unit)
    (k : nat) : forall this,
  (forall j, j < k -> exists e, connect (connect_calls this + j) = Throw e) ->
  connect (connect_calls this + k) = Return tt ->
  reconnectAttempts this + k < maxReconnectAttempts this ->
  let final := handleReconnect connect this in
  reconnectAttempts final = 0 /\
  effects final =
    effects this ++
    attempts_trace (reconnectDelay this) (S (reconnectAttempts this)) (S k) /\
  connect_calls final = connect_calls this + S k.
Proof.
  induction k as [|k IH]; intros this Hfail Hok Hbudget; cbv zeta;
    simp handleReconnect;
    destruct (le_lt_dec (maxReconnectAttempts this) (reconnectAttempts this)) as [Hle|Hlt];
    cbn [handleReconnect_unfold_clause_1]; try lia.
  - rewrite Nat.add_0_r in Hok. rewrite Hok. cbn.
    split; [reflexivity|]. split; [|lia].
    rewrite <- !app_assoc. reflexivity.
  - destruct (Hfail 0) as [e He]; [lia|]. rewrite Nat.add_0_r in He. rewrite He.
    destruct (IH (attempt this)) as (Ha & Heff & Hc).
    + intros j Hj. destruct (Hfail (S j)) as [e' He']; [lia|].
      exists e'. cbn. rewrite <- He'. f_equal. lia.
    + cbn. rewrite <- Hok. f_equal. lia.
    + cbn. lia.
    + rewrite Ha, Heff, Hc. rewrite (attempts_trace_step _ _ (S k)). cbn.
      split; [reflexivity|]. split; [|lia].
      rewrite <- !app_assoc. reflexivity.
Qed.
End ReconnectAny.

Lemma reconnect_success_resets_counter_witness :
  let connect := fun n => if Nat.ltb n 2 then Throw (new_Error "down") else Return tt in
  let final := BaseIntegration.handleReconnect connect BaseIntegration.new_BaseIntegration in
  BaseIntegration.reconnectAttempts final = 0 /\
  BaseIntegration.effects final =
    [BaseIntegration.timeout_set 1000; BaseIntegration.connect_called;
     BaseIntegration.timeout_set 2000; BaseIntegration.connect_called;
     BaseIntegration.timeout_set 3000; BaseIntegration.connect_called] /\
  BaseIntegration.connect_calls final = 3.
Proof.
  apply (reconnect_success_resets_counter
           (fun n => if Nat.ltb n 2 then Throw (new_Error "down") else Return tt)
           2 BaseIntegration.new_BaseIntegration).
  - intros j Hj. exists (new_Error "down"). simpl.
    destruct j as [|[|j]]; [reflexivity | reflexivity | lia].
  - reflexivity.
  - simpl. lia.
Defined.

(* ===================================================================== *)
(** * Inbound messages and AI processing *)
(* ===================================================================== *)

Lemma map_has_set_other {V} (k k' : string) (v : V) (m : Map string V) :
  map_has String.eqb k m = true ->
  map_has String.eqb k (map_set String.eqb k' v m) = true.
Proof.
  unfold map_has. induction m as [|[k0 v0] m IH]; simpl; [discriminate|].
  destruct (k0 =? k')%string eqn:E1; simpl; destruct (k0 =? k)%string; auto.
Qed.

Lemma map_has_set_same {V} (k : string) (v : V) (m : Map string V) :
  map_has String.eqb k (map_set String.eqb k v m) = true.
Proof.
  unfold map_has. induction m as [|[k0 v0] m IH]; simpl.
  - now rewrite String.eqb_refl.
  - destruct (k0 =? k)%string eqn:E; simpl; rewrite E; auto.
Qed.

Section Inbound.
Variable uuidv4 : nat -> string.
Variable clock : nat -> Timestamp.

Lemma outputs_kept_refl (st : Bus) : outputs_kept st st.
Proof. split; [auto|]. exists []. now rewrite app_nil_r. Qed.

Lemma outputs_kept_trans (a b c : Bus) :
  outputs_kept a b -> outputs_kept b c -> outputs_kept a c.
Proof.
  intros [H1 [m1 E1]] [H2 [m2 E2]]. split; [auto|].
  exists (m1 ++ m2). now rewrite E2, E1, app_assoc.
Qed.

Lemma outputs_kept_tick_uuid (st : Bus) : outputs_kept st (tick_uuid st).
Proof. split; [auto|]. exists []. cbn. now rewrite app_nil_r. Qed.

Lemma outputs_kept_tick_clock (st : Bus) : outputs_kept st (tick_clock st).
Proof. split; [auto|]. exists []. cbn. now rewrite app_nil_r. Qed.

Lemma outputs_kept_log_event (e : Event) (st : Bus) : outputs_kept st (log_event e st).
Proof. split; [auto|]. now exists [e]. Qed.

Lemma outputs_kept_log_call (c : SendCall) (st : Bus) : outputs_kept st (log_call c st).
Proof. split; [auto|]. exists []. cbn. now rewrite app_nil_r. Qed.

Lemma outputs_kept_store (platform : string) (rawMessage : Value)
    (st : Bus) (m : Message) (st1 : Bus) :
  normalizeMessage uuidv4 clock platform rawMessage st = (Return m, st1) ->
  outputs_kept st1 (set_messages (map_set String.eqb (msg_id m) m) st1).
Proof.
  intros _. split.
  - intros k Hk. cbn. now apply map_has_set_other.
  - exists []. cbn. now rewrite app_nil_r.
Qed.

Ltac outputs_step :=
  first [ exact outputs_kept_refl | exact outputs_kept_trans
        | exact outputs_kept_tick_uuid | exact outputs_kept_tick_clock
        | exact outputs_kept_log_event | exact outputs_kept_log_call
        | exact outputs_kept_store ].

Lemma processWithAI_returns (message : Message) (st : Bus) :
  exists st', processWithAI uuidv4 clock message st = (Return tt, st').
Proof.
  unfold processWithAI, try_catch.
  match goal with |- context [match ?body st with _ => _ end] =>
    destruct (body st) as [[[]|e] st1]
  end; eexists; reflexivity.
Qed.

(** X17.  [processWithAI] never throws.  Without an agent for the channel or a
    global one, and when the agent rejects or gives no reply, the bus is
    left as it was; with a reply, the bus is left as the [sendMessage] of
    the reply to the message's platform and channel leaves it, whether
    that call returned or threw. *)
Theorem processWithAI_contains_failures (message : Message) (st : Bus) :
  exists st',
    processWithAI uuidv4 clock message st = (Return tt, st') /\
    match select_agent st message with
    | None => st' = st
    | Some aiAgent =>
        match processMessage aiAgent message with
        | Throw _ => st' = st
        | Return response =>
            if truthy response then
              st' = snd (sendMessage uuidv4 clock (msg_platform message)
                           (msg_channelId message) response no_options st)
            else st' = st
        end
    end.
Proof.
  unfold processWithAI, try_catch. unfold bind at 1, gets at 1.
  destruct (select_agent st message) as [aiAgent|]; [|eexists; split; reflexivity].
  unfold bind at 1, pure at 1.
  destruct (processMessage aiAgent message) as [response|e];
    [|eexists; split; reflexivity].
  destruct (truthy response); [|eexists; split; reflexivity].
  unfold bind at 1.
  destruct (sendMessage uuidv4 clock (msg_platform message) (msg_channelId message)
              response no_options st) as [[v|e] st1];
    eexists; split; reflexivity.
Qed.

(** X18.  An inbound payload that normalizes to a message with text content is
    stored and announced whatever the AI side does: [handleIncomingMessage]
    returns normally, the [message] event follows the events emitted
    before, and the id of the message is a key of the store. *)
Theorem handleIncomingMessage_stores_and_emits (platform : string)
    (rawMessage : Value) (st st1 : Bus) (m : Message) (content : string) :
  normalizeMessage uuidv4 clock platform rawMessage st = (Return m, st1) ->
  msg_content m = VStr content ->
  exists st' more,
    handleIncomingMessage uuidv4 clock platform rawMessage st = (Return tt, st') /\
    map_has String.eqb (msg_id m) (messages st') = true /\
    emitted st' = emitted st ++ message_event m :: more.
Proof.
  intros Hn Hc. unfold handleIncomingMessage.
  unfold bind at 1. rewrite Hn.
  unfold bind at 1, modify at 1. unfold bind at 1, emit at 1, modify at 1.
  unfold bind at 1. unfold shouldProcessWithAI at 1. rewrite Hc.
  set (st2 := log_event (message_event m)
                (set_messages (map_set String.eqb (msg_id m) m) st1)).
  assert (Hhas : map_has String.eqb (msg_id m) (messages st2) = true).
  { subst st2. cbn. apply map_has_set_same. }
  assert (Hem : emitted st2 = emitted st ++ [message_event m]).
  { subst st2. cbn. f_equal.
    apply normalizeMessage_spec in Hn. tauto. }
  match goal with |- context [if ?b then _ else _] => destruct b end.
  - destruct (processWithAI_returns m st2) as [st' Hp].
    assert (Hk : outputs_kept st2 st').
    { eapply (stable_processWithAI outputs_kept); try exact Hp; outputs_step. }
    destruct Hk as [Hkeys [more Hmore]].
    exists st', more. rewrite Hp. split; [reflexivity|]. split; [now apply Hkeys|].
    rewrite Hmore, Hem, <- app_assoc. reflexivity.
  - exists st2, []. split; [reflexivity|]. split; [exact Hhas | exact Hem].
Qed.

(** X19.  A Telegram payload without [from] is not stored: reading
    [rawMessage.from.id] throws, the handler rethrows, and the bus has
    only used up an identifier and a clock reading. *)
Theorem handleIncomingMessage_telegram_without_from (props : list (string * Value))
    (st : Bus) :
  own_property "from" props = VUndefined ->
  handleIncomingMessage uuidv4 clock "telegram" (VObj props) st =
    (Throw (TypeError "Cannot read properties of undefined (reading 'id')"),
     tick_clock (tick_uuid st)).
Proof.
  intros Hfrom. unfold handleIncomingMessage, normalizeMessage.
  unfold bind, call_uuidv4, moment_now, pure. cbn. rewrite Hfrom. reflexivity.
Qed.
End Inbound.

Lemma handleIncomingMessage_stores_and_emits_witness :
  let m := mkMessage "x" "telegram" 1000%Z false [] [] (VStr "hi")
             (VObj [("id", VNum 1); ("username", VStr "bob");
                    ("firstName", VUndefined); ("lastName", VUndefined)])
             (VNum 42) (VStr "Team") (VNum 99) (VStr "text") in
  exists st' more,
    handleIncomingMessage sample_uuid sample_clock "telegram" telegram_hi
                          new_MessageManager = (Return tt, st') /\
    map_has String.eqb (msg_id m) (messages st') = true /\
    emitted st' = emitted new_MessageManager ++ message_event m :: more.
Proof.
  intros m.
  apply (handleIncomingMessage_stores_and_emits sample_uuid sample_clock
           "telegram" telegram_hi new_MessageManager
           (tick_clock (tick_uuid new_MessageManager)) m "hi");
    reflexivity.
Defined.

Lemma handleIncomingMessage_telegram_without_from_witness :
  handleIncomingMessage sample_uuid sample_clock "telegram"
    (VObj [("text", VStr "post"); ("chat", VObj [("id", VNum 42)])])
    new_MessageManager =
  (Throw (TypeError "Cannot read properties of undefined (reading 'id')"),
   tick_clock (tick_uuid new_MessageManager)).
Proof.
  apply (handleIncomingMessage_telegram_without_from sample_uuid sample_clock
           [("text", VStr "post"); ("chat", VObj [("id", VNum 42)])]
           new_MessageManager).
  reflexivity.
Defined.

(* ===================================================================== *)
(** * Message types *)
(* ===================================================================== *)

(** X20.  On a payload object [getMessageType] returns one of seven names;
    [photo] wins over every other attachment, and the type is [text]
    exactly when none of the six attachment fields is truthy. *)
Theorem getMessageType_spec (props : list (string * Value)) :
  exists t,
    getMessageType (VObj props) = Return (VStr t) /\
    In t message_types /\
    (truthy (own_property "photo" props) = true -> t = "photo") /\
    (t = "text" <->
     truthy (own_property "photo" props) = false /\
     truthy (own_property "video" props) = false /\
     truthy (own_property "audio" props) = false /\
     truthy (own_property "voice" props) = false /\
     truthy (own_property "document" props) = false /\
     truthy (own_property "sticker" props) = false).
Proof.
  unfold getMessageType, message_types. cbn [get cbind].
  destruct (truthy (own_property "photo" props)) eqn:E1;
    [eexists; split; [reflexivity|]; split; [simpl; tauto|];
     split; [reflexivity|]; split; [discriminate | intros (H & _); discriminate H]|].
  destruct (truthy (own_property "video" props)) eqn:E2;
    [eexists; split; [reflexivity|]; split; [simpl; tauto|];
     split; [discriminate|]; split; [discriminate | intros (_ & H & _); discriminate H]|].
  destruct (truthy (own_property "audio" props)) eqn:E3;
    [eexists; split; [reflexivity|]; split; [simpl; tauto|];
     split; [discriminate|]; split; [discriminate | intros (_ & _ & H & _); discriminate H]|].
  destruct (truthy (own_property "voice" props)) eqn:E4;
    [eexists; split; [reflexivity|]; split; [simpl; tauto|];
     split; [discriminate|]; split;
     [discriminate | intros (_ & _ & _ & H & _); discriminate H]|].
  destruct (truthy (own_property "document" props)) eqn:E5;
    [eexists; split; [reflexivity|]; split; [simpl; tauto|];
     split; [discriminate|]; split;
     [discriminate | intros (_ & _ & _ & _ & H & _); discriminate H]|].
  destruct (truthy (own_property "sticker" props)) eqn:E6;
    [eexists; split; [reflexivity|]; split; [simpl; tauto|];
     split; [discriminate|]; split;
     [discriminate | intros (_ & _ & _ & _ & _ & H); discriminate H]|].
  eexists. split; [reflexivity|]. split; [simpl; tauto|].
  split; [discriminate|]. split; [tauto | reflexivity].
Qed.

(* ===================================================================== *)
(** * The channel view *)
(* ===================================================================== *)

Section ChannelView.
Variable number_toString : Z -> string.

Lemma total_count_set_new (k : string) (c : Channel) (m : Map string Channel) :
  map_has String.eqb k m = false ->
  total_count (map_values (map_set String.eqb k c m)) =
  total_count (map_values m) + ch_messageCount c.
Proof.
  unfold map_has. induction m as [|[k0 c0] m IH]; simpl; intros H.
  - lia.
  - destruct (k0 =? k)%string; [discriminate|]. simpl. rewrite IH by exact H. lia.
Qed.

Lemma total_count_counted (k : string) (m : Map string Channel) :
  map_has String.eqb k m = true ->
  total_count (map_values (map_update String.eqb k count_message m)) =
  S (total_count (map_values m)).
Proof.
  unfold map_has. induction m as [|[k0 c0] m IH]; simpl; intros H.
  - discriminate.
  - destruct (k0 =? k)%string; simpl.
    + reflexivity.
    + rewrite IH by exact H. lia.
Qed.

Lemma total_count_stamped (k : string) (t : Timestamp) (m : Map string Channel) :
  total_count (map_values (map_update String.eqb k (set_lastMessage t) m)) =
  total_count (map_values m).
Proof.
  induction m as [|[k0 c0] m IH]; simpl.
  - reflexivity.
  - destruct (k0 =? k)%string; simpl; [reflexivity | now rewrite IH].
Qed.

Lemma map_has_update {V} (k k' : string) (f : V -> V) (m : Map string V) :
  map_has String.eqb k (map_update String.eqb k' f m) = map_has String.eqb k m.
Proof.
  unfold map_has. induction m as [|[k0 v0] m IH]; simpl.
  - reflexivity.
  - destruct (k0 =? k')%string eqn:E1; simpl; destruct (k0 =? k)%string; auto.
Qed.

Lemma see_message_count (channels : Map string Channel) (message : Message) :
  total_count (map_values (see_message number_toString channels message)) =
  S (total_count (map_values channels)).
Proof.
  unfold see_message.
  set (key := channel_key number_toString message).
  set (channels1 := if map_has String.eqb key channels then _ else _).
  assert (H1 : map_has String.eqb key channels1 = true /\
               total_count (map_values channels1) = total_count (map_values channels)).
  { subst channels1. destruct (map_has String.eqb key channels) eqn:E.
    - auto.
    - split; [apply map_has_set_same|]. rewrite total_count_set_new by exact E.
      simpl. lia. }
  destruct H1 as [Hhas Hcount].
  assert (H2 : total_count (map_values (map_update String.eqb key count_message channels1))
               = S (total_count (map_values channels))).
  { rewrite total_count_counted by exact Hhas. now rewrite Hcount. }
  destruct (map_get String.eqb key (map_update String.eqb key count_message channels1))
    as [channel|]; [|exact H2].
  destruct (isAfter (msg_timestamp message) (ch_lastMessage channel)); [|exact H2].
  now rewrite total_count_stamped.
Qed.

(** X21.  The message counts of [getChannels()] add up to the size of the
    store: every stored message is counted in exactly one channel. *)
Theorem getChannels_counts_every_message (st : Bus) :
  total_count (getChannels number_toString st) = map_size (messages st).
Proof.
  unfold getChannels, map_size.
  assert (H : forall l acc,
    total_count (map_values (fold_left (see_message number_toString) l acc)) =
    total_count (map_values acc) + List.length l).
  { induction l as [|x l IH]; intros acc; simpl.
    - lia.
    - rewrite IH, see_message_count. lia. }
  rewrite H. simpl. unfold map_values. now rewrite length_map.
Qed.
End ChannelView.

Section ChannelLast.
Variable number_toString : Z -> string.

Lemma map_get_update {V} (k k' : string) (f : V -> V) (m : Map string V) :
  map_get String.eqb k (map_update String.eqb k' f m) =
  if (k' =? k)%string then option_map f (map_get String.eqb k m)
  else map_get String.eqb k m.
Proof.
  induction m as [|[k0 v0] m IH]; simpl.
  - now destruct (k' =? k)%string.
  - destruct (String.eqb_spec k0 k') as [->|Hne]; simpl.
    + destruct (k' =? k)%string; reflexivity.
    + destruct (String.eqb_spec k0 k) as [->|Hne2].
      * destruct (String.eqb_spec k' k) as [->|_]; [contradiction | reflexivity].
      * exact IH.
Qed.

Lemma map_get_set {V} (k k' : string) (v : V) (m : Map string V) :
  map_has String.eqb k' m = false ->
  map_get String.eqb k (map_set String.eqb k' v m) =
  if (k' =? k)%string then Some v else map_get String.eqb k m.
Proof.
  unfold map_has. induction m as [|[k0 v0] m IH]; simpl; intros H.
  - reflexivity.
  - destruct (String.eqb_spec k0 k') as [->|Hne]; [discriminate|]. simpl.
    destruct (String.eqb_spec k0 k) as [->|Hne2].
    + destruct (String.eqb_spec k' k) as [->|_]; [contradiction | reflexivity].
    + now apply IH.
Qed.

Lemma map_get_In_values {V} (k : string) (v : V) (m : Map string V) :
  map_get String.eqb k m = Some v -> In v (map_values m).
Proof.
  induction m as [|[k0 v0] m IH]; simpl; [discriminate|].
  destruct (k0 =? k)%string.
  - intros H. injection H as <-. now left.
  - intros H. right. now apply IH.
Qed.

(** What the loop of [getChannels] knows after the messages [seen]: each
    of them has an entry under its key, stamped no earlier than the
    message, and every entry is stamped with the timestamp of one of the
    messages of its key. *)
Lemma see_message_last (seen : list Message) (channels : Map string Channel)
    (x : Message) :
  (forall m, In m seen -> exists c,
     map_get String.eqb (channel_key number_toString m) channels = Some c /\
     (msg_timestamp m <= ch_lastMessage c)%Z) ->
  (forall k c, map_get String.eqb k channels = Some c -> exists m,
     In m seen /\ channel_key number_toString m = k /\
     ch_lastMessage c = msg_timestamp m) ->
  let channels' := see_message number_toString channels x in
  (forall m, In m (seen ++ [x]) -> exists c,
     map_get String.eqb (channel_key number_toString m) channels' = Some c /\
     (msg_timestamp m <= ch_lastMessage c)%Z) /\
  (forall k c, map_get String.eqb k channels' = Some c -> exists m,
     In m (seen ++ [x]) /\ channel_key number_toString m = k /\
     ch_lastMessage c = msg_timestamp m).
Proof.
  intros Hseen Hfrom. cbv zeta. unfold see_message.
  set (key := channel_key number_toString x).
  set (fresh := mkChannel (msg_platform x) (msg_channelId x) (msg_channelName x)
                          (msg_timestamp x) 0).
  set (channels1 := if map_has String.eqb key channels then channels
                    else map_set String.eqb key fresh channels).
  (* the entry under [key] before the count, and the other entries *)
  assert (H1 : exists c1,
    map_get String.eqb key channels1 = Some c1 /\
    (exists m, In m (seen ++ [x]) /\ channel_key number_toString m = key /\
               ch_lastMessage c1 = msg_timestamp m) /\
    forall k, k <> key -> map_get String.eqb k channels1 = map_get String.eqb k channels).
  { subst channels1. unfold map_has.
    destruct (map_get String.eqb key channels) as [c|] eqn:E.
    - exists c. split; [exact E|]. split; [|reflexivity].
      destruct (Hfrom key c E) as (m & Hm & Hk & Hl).
      exists m. split; [apply in_app_iff; now left | auto].
    - exists fresh. split.
      + rewrite map_get_set by (unfold map_has; now rewrite E).
        now rewrite String.eqb_refl.
      + split.
        * exists x. split; [apply in_app_iff; right; now left | auto].
        * intros k Hk. rewrite map_get_set by (unfold map_has; now rewrite E).
          destruct (String.eqb_spec key k); [congruence | reflexivity]. }
  destruct H1 as (c1 & Hget1 & Hfrom1 & Hother1).
  set (channels2 := map_update String.eqb key count_message channels1).
  assert (Hget2 : map_get String.eqb key channels2 = Some (count_message c1)).
  { subst channels2. rewrite map_get_update, String.eqb_refl, Hget1. reflexivity. }
  rewrite Hget2.
  assert (Hother2 : forall k, k <> key ->
            map_get String.eqb k channels2 = map_get String.eqb k channels).
  { intros k Hk. subst channels2. rewrite map_get_update.
    destruct (String.eqb_spec key k); [congruence | now apply Hother1]. }
  change (ch_lastMessage (count_message c1)) with (ch_lastMessage c1).
  (* the entry under [key] at the end *)
  set (channels3 := if isAfter (msg_timestamp x) (ch_lastMessage c1)
                    then map_update String.eqb key (set_lastMessage (msg_timestamp x)) channels2
                    else channels2).
  assert (H3 : exists c3,
    map_get String.eqb key channels3 = Some c3 /\
    (msg_timestamp x <= ch_lastMessage c3)%Z /\
    (ch_lastMessage c1 <= ch_lastMessage c3)%Z /\
    (ch_lastMessage c3 = ch_lastMessage c1 \/ ch_lastMessage c3 = msg_timestamp x) /\
    forall k, k <> key -> map_get String.eqb k channels3 = map_get String.eqb k channels).
  { subst channels3. unfold isAfter.
    destruct (Z.ltb_spec (ch_lastMessage c1) (msg_timestamp x)).
    - exists (set_lastMessage (msg_timestamp x) (count_message c1)).
      split; [rewrite map_get_update, String.eqb_refl, Hget2; reflexivity|].
      cbn. split; [lia|]. split; [lia|]. split; [now right|].
      intros k Hk. rewrite map_get_update.
      destruct (String.eqb_spec key k); [congruence | now apply Hother2].
    - exists (count_message c1). split; [exact Hget2|].
      cbn. split; [lia|]. split; [lia|]. split; [now left | exact Hother2]. }
  destruct H3 as (c3 & Hget3 & Hx & Hmono & Hcase & Hother3).
  fold channels3. split.
  - intros m Hm. apply in_app_iff in Hm.
    destruct (String.eqb_spec (channel_key number_toString m) key) as [Hk|Hk].
    + rewrite Hk. exists c3. split; [exact Hget3|].
      destruct Hm as [Hm | [<-|[]]]; [|exact Hx].
      destruct (Hseen m Hm) as (c & Hc & Hle). rewrite Hk in Hc.
      assert (Hcc : c = c1).
      { subst channels1. unfold map_has in Hget1. rewrite Hc in Hget1. congruence. }
      subst c. lia.
    + destruct Hm as [Hm | [<-|[]]]; [|contradiction Hk; reflexivity].
      destruct (Hseen m Hm) as (c & Hc & Hle).
      exists c. split; [|exact Hle]. now rewrite Hother3.
  - intros k c Hc.
    destruct (String.eqb_spec k key) as [->|Hk].
    + rewrite Hget3 in Hc. injection Hc as <-.
      destruct Hcase as [Heq|Heq].
      * destruct Hfrom1 as (m & Hm & Hkm & Hl). exists m. rewrite Heq. auto.
      * exists x. split; [apply in_app_iff; right; now left | auto].
    + rewrite Hother3 in Hc by exact Hk.
      destruct (Hfrom k c Hc) as (m & Hm & Hkm & Hl).
      exists m. split; [apply in_app_iff; now left | auto].
Qed.

(** X22.  Every stored message has its channel in [getChannels()], under the
    key [platform:channelId], and the channel's [lastMessage] is the
    latest timestamp among the stored messages of that key, in whatever
    order they were stored. *)
Theorem getChannels_last_message (st : Bus) (m : Message) :
  In m (map_values (messages st)) ->
  exists c,
    In c (getChannels number_toString st) /\
    (msg_timestamp m <= ch_lastMessage c)%Z /\
    exists m',
      In m' (map_values (messages st)) /\
      channel_key number_toString m' = channel_key number_toString m /\
      ch_lastMessage c = msg_timestamp m'.
Proof.
  intros Hm. unfold getChannels.
  assert (H : forall l seen acc,
    (forall m, In m seen -> exists c,
       map_get String.eqb (channel_key number_toString m) acc = Some c /\
       (msg_timestamp m <= ch_lastMessage c)%Z) ->
    (forall k c, map_get String.eqb k acc = Some c -> exists m,
       In m seen /\ channel_key number_toString m = k /\
       ch_lastMessage c = msg_timestamp m) ->
    let final := fold_left (see_message number_toString) l acc in
    (forall m, In m (seen ++ l) -> exists c,
       map_get String.eqb (channel_key number_toString m) final = Some c /\
       (msg_timestamp m <= ch_lastMessage c)%Z) /\
    (forall k c, map_get String.eqb k final = Some c -> exists m,
       In m (seen ++ l) /\ channel_key number_toString m = k /\
       ch_lastMessage c = msg_timestamp m)).
  { induction l as [|x l IH]; intros seen acc H1 H2; simpl.
    - rewrite app_nil_r. auto.
    - replace (seen ++ x :: l) with ((seen ++ [x]) ++ l)
        by (rewrite <- app_assoc; reflexivity).
      destruct (see_message_last seen acc x H1 H2) as [H1' H2'].
      now apply IH. }
  destruct (H (map_values (messages st)) [] []) as [Hall Hfrom].
  - intros m0 [].
  - intros k c Hc. discriminate Hc.
  - simpl in Hall, Hfrom. destruct (Hall m Hm) as (c & Hc & Hle).
    exists c. split; [now apply map_get_In_values with (k := channel_key number_toString m)|].
    split; [exact Hle|].
    destruct (Hfrom _ c Hc) as (m' & Hm' & Hk & Hl). eauto.
Qed.
End ChannelLast.

Lemma getChannels_last_message_witness :
  let early := sample_message "telegram" (VStr "b") (VNum 42) 1000%Z "xx" in
  let st := with_messages
              [sample_message "telegram" (VStr "a") (VNum 42) 3000%Z "x"; early] in
  exists c,
    In c (getChannels decimal st) /\
    (msg_timestamp early <= ch_lastMessage c)%Z /\
    exists m',
      In m' (map_values (messages st)) /\
      channel_key decimal m' = channel_key decimal early /\
      ch_lastMessage c = msg_timestamp m'.
Proof.
  intros early st.
  apply (getChannels_last_message decimal st early).
  right. left. reflexivity.
Defined.

(* ===================================================================== *)
(** * Objects *)
(* ===================================================================== *)

Lemma own_property_set_other (k k' : string) (v : Value)
    (props : list (string * Value)) :
  (k' =? k) = false ->
  own_property k (props_set k' v props) = own_property k props.
Proof.
  intros Hk. induction props as [|[k0 v0] props IH]; simpl.
  - now rewrite Hk.
  - destruct (String.eqb_spec k0 k') as [->|Hne]; simpl.
    + now rewrite Hk.
    + now rewrite IH.
Qed.

Lemma own_property_set_same (k : string) (v : Value)
    (props : list (string * Value)) :
  own_property k (props_set k v props) = v.
Proof.
  induction props as [|[k0 v0] props IH]; simpl.
  - now rewrite String.eqb_refl.
  - destruct (k0 =? k) eqn:E; simpl; now rewrite E.
Qed.

Lemma own_property_absent (k : string) (props : list (string * Value)) :
  has_own_property k props = false -> own_property k props = VUndefined.
Proof.
  unfold has_own_property. induction props as [|[k0 v0] props IH]; simpl.
  - reflexivity.
  - destruct (k0 =? k); [discriminate | exact IH].
Qed.

Lemma has_own_property_In (k : string) (props : list (string * Value)) :
  has_own_property k props = true -> In k (List.map fst props).
Proof.
  unfold has_own_property. intros H. apply existsb_exists in H.
  destruct H as [[k0 v0] [Hin Heq]]. simpl in Heq. apply String.eqb_eq in Heq.
  subst. apply in_map_iff. now exists (k, v0).
Qed.

Lemma own_property_spread (k : string) (b : list (string * Value)) :
  NoDup (List.map fst b) -> forall a,
  own_property k (spread a b) =
  if has_own_property k b then own_property k b else own_property k a.
Proof.
  unfold spread. induction b as [|[k0 v0] b IH]; intros Hnd a; simpl.
  - reflexivity.
  - apply NoDup_cons_iff in Hnd. destruct Hnd as [Hnot Hnd].
    rewrite (IH Hnd). simpl. unfold has_own_property at 2. simpl.
    destruct (String.eqb_spec k0 k) as [->|Hne]; simpl.
    + destruct (has_own_property k b) eqn:E.
      * exfalso. apply Hnot. now apply has_own_property_In.
      * apply own_property_set_same.
    + fold (has_own_property k b). destruct (has_own_property k b); [reflexivity|].
      apply own_property_set_other. now apply String.eqb_neq.
Qed.

(** X23.  [updateConfig(newConfig)] keeps every key of the old configuration
    and takes every key of the new one: a key reads as in [newConfig] when
    [newConfig] has it, and as before when not. *)
Theorem updateConfig_merges (config newConfig : Value) (key : string) :
  NoDup (List.map fst (own_properties config)) ->
  NoDup (List.map fst (own_properties newConfig)) ->
  get (BaseIntegration.updateConfig config newConfig) key =
  Return (if has_own_property key (own_properties newConfig)
          then own_property key (own_properties newConfig)
          else own_property key (own_properties config)).
Proof.
  intros Ha Hb. unfold BaseIntegration.updateConfig. cbn [get].
  rewrite (own_property_spread key _ Hb), (own_property_spread key _ Ha).
  destruct (has_own_property key (own_properties newConfig)); [reflexivity|].
  destruct (has_own_property key (own_properties config)) eqn:E; [reflexivity|].
  rewrite (own_property_absent key (own_properties config)) by exact E.
  reflexivity.
Qed.

Lemma updateConfig_merges_witness :
  get (BaseIntegration.updateConfig
         (VObj [("botToken", VStr "t1"); ("parseMode", VStr "HTML")])
         (VObj [("botToken", VStr "t2")])) "parseMode" =
  Return (if has_own_property "parseMode" [("botToken", VStr "t2")]
          then own_property "parseMode" [("botToken", VStr "t2")]
          else own_property "parseMode"
                 [("botToken", VStr "t1"); ("parseMode", VStr "HTML")]).
Proof.
  apply (updateConfig_merges
           (VObj [("botToken", VStr "t1"); ("parseMode", VStr "HTML")])
           (VObj [("botToken", VStr "t2")]) "parseMode").
  - simpl. repeat constructor; simpl; intuition discriminate.
  - simpl. repeat constructor; simpl; intuition discriminate.
Defined.

(* ===================================================================== *)
(** * From the adapters to the bus *)
(* ===================================================================== *)

Lemma map_get_In_value {V} (k : Value) (v : V) (m : Map Value V) :
  map_get strict_eq k m = Some v -> exists k', In (k', v) m.
Proof.
  induction m as [|[k0 v0] m IH]; simpl; [discriminate|].
  destruct (strict_eq k0 k).
  - intros H. injection H as <-. eauto.
  - intros H. destruct (IH H) as [k' Hk']. eauto.
Qed.

Section AdaptersToBus.
Import Adapters.

Lemma cached_name (cache : Map Value Value) (k : Value) :
  (forall k' v, In (k', v) cache -> exists props, v = VObj props) ->
  exists name,
    match map_get strict_eq k cache with
    | Some v => if truthy v then get v "name" else Return (VStr "Unknown")
    | None => Return (VStr "Unknown")
    end = Return name /\
    (map_get strict_eq k cache = None -> name = VStr "Unknown").
Proof.
  intros Hobj. destruct (map_get strict_eq k cache) as [v|] eqn:E.
  - destruct (map_get_In_value _ _ _ E) as [k' Hin].
    destruct (Hobj _ _ Hin) as [props ->]. simpl.
    eexists. split; [reflexivity | discriminate].
  - eexists. split; [reflexivity | reflexivity].
Qed.

(** X24.  A Slack event that is not a bot message, handled by the adapter and
    normalized by the bus, becomes a message with the event's text (or
    ["[Media]"]), user, channel and [ts]; its type is ["message"]
    whatever the event's subtype, because the adapter does not pass the
    subtype on; user and channel names missing from the adapter's caches
    read ["Unknown"].  An event with subtype ["bot_message"] is dropped. *)
Theorem slack_event_to_message (channels users : Map Value Value)
    (props : list (string * Value)) :
  (forall k v, In (k, v) channels -> exists ps, v = VObj ps) ->
  (forall k v, In (k, v) users -> exists ps, v = VObj ps) ->
  (own_property "subtype" props = VStr "bot_message" ->
   slack_handleMessage channels users (VObj props) = Return None) /\
  (strict_eq (own_property "subtype" props) (VStr "bot_message") = false ->
   exists rawMessage,
     slack_handleMessage channels users (VObj props) = Return (Some rawMessage) /\
     forall uuidv4 clock st, exists m st',
       normalizeMessage uuidv4 clock "slack" rawMessage st = (Return m, st') /\
       msg_content m = or (own_property "text" props) (VStr "[Media]") /\
       get (msg_author m) "id" = Return (own_property "user" props) /\
       msg_channelId m = own_property "channel" props /\
       msg_messageId m = own_property "ts" props /\
       msg_type m = VStr "message" /\
       (map_get strict_eq (own_property "user" props) users = None ->
        get (msg_author m) "username" = Return (VStr "Unknown")) /\
       (map_get strict_eq (own_property "channel" props) channels = None ->
        msg_channelName m = VStr "Unknown")).
Proof.
  intros Hchannels Husers. split.
  - intros Hsub. unfold slack_handleMessage. cbn [truthy negb get cbind].
    rewrite Hsub. reflexivity.
  - intros Hsub. unfold slack_handleMessage. cbn [truthy negb get cbind].
    rewrite Hsub.
    destruct (cached_name users (own_property "user" props) Husers)
      as (username & Hu & Hu').
    destruct (cached_name channels (own_property "channel" props) Hchannels)
      as (channel_name & Hc & Hc').
    rewrite Hu, Hc. cbn [cbind].
    eexists. split; [reflexivity|].
    intros uuidv4 clock st. eexists. eexists. split; [reflexivity|].
    cbn. repeat split.
    + intros Hnone. now rewrite (Hu' Hnone).
    + intros Hnone. now rewrite (Hc' Hnone).
Qed.

(** X25.  The Telegram adapter hands on a copy of the update's message with two
    more fields, [isEdit] and [platform], and [normalizeMessage] reads
    neither: the wrapped payload normalizes exactly as the message itself,
    so an edit is stored as one more message, with nothing that tells it
    from a new one. *)
Theorem telegram_wrapping_is_transparent (chats : Map Value Value)
    (ctx_props props chat_props : list (string * Value)) (isEdit : bool) :
  or (own_property "message" ctx_props) (own_property "editedMessage" ctx_props)
    = VObj props ->
  own_property "chat" props = VObj chat_props ->
  exists chats' processedMessage,
    telegram_handleMessage chats (VObj ctx_props) isEdit
      = Return (chats', Some processedMessage) /\
    get processedMessage "isEdit" = Return (VBool isEdit) /\
    forall uuidv4 clock st,
      normalizeMessage uuidv4 clock "telegram" processedMessage st =
      normalizeMessage uuidv4 clock "telegram" (VObj props) st.
Proof.
  intros Hmsg Hchat. unfold telegram_handleMessage. cbn [get cbind].
  assert (Hsel : (if truthy (own_property "message" ctx_props)
                  then Return (own_property "message" ctx_props)
                  else Return (own_property "editedMessage" ctx_props))
                 = Return (VObj props)).
  { unfold or in Hmsg. destruct (truthy (own_property "message" ctx_props));
      now rewrite Hmsg. }
  rewrite Hsel. cbn [cbind truthy negb get]. rewrite Hchat. cbn [cbind get own_properties].
  eexists. eexists. split; [reflexivity|]. split.
  - cbn [get]. rewrite own_property_set_other by reflexivity.
    now rewrite own_property_set_same.
  - intros uuidv4 clock st. unfold normalizeMessage, getMessageType.
    cbn [get]. rewrite !own_property_set_other by reflexivity. reflexivity.
Qed.
End AdaptersToBus.

Lemma slack_event_to_message_witness :
  let channels : Map Value Value := [(VStr "C1", VObj [("name", VStr "general")])] in
  let users : Map Value Value := [] in
  let props := [("text", VStr "hello"); ("user", VStr "U1"); ("channel", VStr "C1");
                ("ts", VStr "17.01"); ("subtype", VStr "thread_broadcast")] in
  exists rawMessage,
    Adapters.slack_handleMessage channels users (VObj props) = Return (Some rawMessage) /\
    forall uuidv4 clock st, exists m st',
      normalizeMessage uuidv4 clock "slack" rawMessage st = (Return m, st') /\
      msg_content m = or (own_property "text" props) (VStr "[Media]") /\
      get (msg_author m) "id" = Return (own_property "user" props) /\
      msg_channelId m = own_property "channel" props /\
      msg_messageId m = own_property "ts" props /\
      msg_type m = VStr "message" /\
      (map_get strict_eq (own_property "user" props) users = None ->
       get (msg_author m) "username" = Return (VStr "Unknown")) /\
      (map_get strict_eq (own_property "channel" props) channels = None ->
       msg_channelName m = VStr "Unknown").
Proof.
  intros channels users props.
  assert (Hch : forall k v, In (k, v) channels -> exists ps, v = VObj ps).
  { intros k v [H|[]]. injection H as _ <-. eauto. }
  assert (Hus : forall k v, In (k, v) users -> exists ps, v = VObj ps).
  { intros k v []. }
  apply (proj2 (slack_event_to_message channels users props Hch Hus)).
  reflexivity.
Defined.

Lemma telegram_wrapping_is_transparent_witness :
  exists chats' processedMessage,
    Adapters.telegram_handleMessage [] (VObj [("editedMessage", telegram_hi)]) true
      = Return (chats', Some processedMessage) /\
    get processedMessage "isEdit" = Return (VBool true) /\
    forall uuidv4 clock st,
      normalizeMessage uuidv4 clock "telegram" processedMessage st =
      normalizeMessage uuidv4 clock "telegram" telegram_hi st.
Proof.
  apply (telegram_wrapping_is_transparent [] [("editedMessage", telegram_hi)]
           [("text", VStr "hi");
            ("from", VObj [("id", VNum 1); ("username", VStr "bob")]);
            ("chat", VObj [("id", VNum 42); ("title", VStr "Team")]);
            ("message_id", VNum 99)]
           [("id", VNum 42); ("title", VStr "Team")] true);
    reflexivity.
Defined.

(* ===================================================================== *)
(** * Registration and failure, end to end *)
(* ===================================================================== *)

Section EndToEnd.
Variable uuidv4 : nat -> string.
Variable clock : nat -> Timestamp.

(** X26.  Registering an adapter for a platform that has one replaces it: a
    send to the platform goes to the new adapter, so when that one rejects
    the caller gets its error, whatever adapter was registered before. *)
Theorem reregistration_replaces_adapter (st : Bus) (platform : string)
    (integration : Adapter) (channelId content : Value) (options : Options)
    (error : Error) :
  adapter_sendMessage integration (adapter_calls st) channelId content options
    = Throw error ->
  let st1 := snd (registerIntegration platform integration st) in
  map_get String.eqb platform (integrations st1) = Some integration /\
  (In platform (map_keys (integrations st)) ->
   map_keys (integrations st1) = map_keys (integrations st)) /\
  fst (sendMessage uuidv4 clock platform channelId content options st1) = Throw error.
Proof.
  intros Hsend st1.
  assert (Hget : map_get String.eqb platform (integrations st1) = Some integration).
  { subst st1. cbn. apply map_get_set_same; [apply String.eqb_refl|].
    intros a b. apply String.eqb_eq. }
  split; [exact Hget|]. split.
  - intros Hin. subst st1. cbn. unfold map_keys in *.
    induction (integrations st) as [|[k v] l IH]; simpl in *; [contradiction|].
    destruct (String.eqb_spec k platform) as [->|Hne]; simpl; [reflexivity|].
    f_equal. apply IH. destruct Hin as [Hin|Hin]; [contradiction | exact Hin].
  - destruct (sendMessage_adapter_failure uuidv4 clock st1 platform channelId content
                options integration error Hget Hsend) as (st' & Hs & _).
    now rewrite Hs.
Qed.

(** X3.  When the only registered adapter rejects the send to the first
    channel of a broadcast, the broadcast returns the single entry
    [{platform, error}] and has made that one adapter call: the channels
    after the first are not tried. *)
Theorem broadcast_stops_platform_at_first_failure (st : Bus) (platform : string)
    (integration : Adapter) (content channelId : Value) (rest : list Value)
    (error : Error) :
  integrations st = [(platform, integration)] ->
  adapter_sendMessage integration (adapter_calls st) channelId content
    (mkOptions (Some (channelId :: rest))) = Throw error ->
  sendCrossChannelMessage uuidv4 clock content
    (mkOptions (Some (channelId :: rest))) st =
  (Return [failed platform (message error)],
   log_call (mkSendCall platform channelId content
               (mkOptions (Some (channelId :: rest)))) st).
Proof.
  intros Hreg Hsend.
  destruct (sendMessage_adapter_failure uuidv4 clock st platform channelId content
              (mkOptions (Some (channelId :: rest))) integration error)
    as (st' & Hs & _).
  { rewrite Hreg. simpl. now rewrite String.eqb_refl. }
  { exact Hsend. }
  assert (Hst' : st' = log_call (mkSendCall platform channelId content
                                   (mkOptions (Some (channelId :: rest)))) st).
  { unfold sendMessage, bind, gets, try_catch, call_sendMessage, throw in Hs.
    rewrite Hreg in Hs. simpl in Hs. rewrite String.eqb_refl in Hs.
    rewrite Hsend in Hs. now injection Hs as <-. }
  subst st'.
  unfold sendCrossChannelMessage. rewrite Hreg.
  cbn [for_of]. unfold bind at 1. unfold send_to_platform at 1.
  unfold try_catch at 1. unfold bind at 1, on_bus at 1, gets at 1.
  cbn [fst snd opt_channels for_of].
  unfold bind at 1. unfold bind at 1, on_bus at 1. cbn [fst snd].
  rewrite Hs. unfold push, modify, ret. reflexivity.
Qed.
End EndToEnd.

Lemma reregistration_replaces_adapter_witness :
  let st1 := snd (registerIntegration "slack" adapter_down two_platforms) in
  map_get String.eqb "slack" (integrations st1) = Some adapter_down /\
  (In "slack" (map_keys (integrations two_platforms)) ->
   map_keys (integrations st1) = map_keys (integrations two_platforms)) /\
  fst (sendMessage sample_uuid sample_clock "slack" (VStr "C1") (VStr "hi")
                   no_options st1) = Throw (new_Error "not connected").
Proof.
  apply (reregistration_replaces_adapter sample_uuid sample_clock two_platforms
           "slack" adapter_down (VStr "C1") (VStr "hi") no_options
           (new_Error "not connected")).
  reflexivity.
Defined.

Lemma broadcast_stops_platform_at_first_failure_witness :
  sendCrossChannelMessage sample_uuid sample_clock (VStr "hi")
    (mkOptions (Some [VStr "c1"; VStr "c2"]))
    (with_integrations [("telegram", adapter_fails_on_c1)]) =
  (Return [failed "telegram" "channel not found"],
   log_call (mkSendCall "telegram" (VStr "c1") (VStr "hi")
               (mkOptions (Some [VStr "c1"; VStr "c2"])))
            (with_integrations [("telegram", adapter_fails_on_c1)])).
Proof.
  apply (broadcast_stops_platform_at_first_failure sample_uuid sample_clock
           (with_integrations [("telegram", adapter_fails_on_c1)]) "telegram"
           adapter_fails_on_c1 (VStr "hi") (VStr "c1") [VStr "c2"]
           (new_Error "channel not found")); reflexivity.
Defined.
